(** * SheenEdge: the [Output] component (client/src/components/Output.tsx)

    A shallow embedding of the component's state cells and of its five
    asynchronous handlers ([fetchEmails], [runCode], [saveCode],
    [handleEmailSubmit], [removeEmail]) together with [toggleRemoveMode],
    followed by the properties of the access list, the execution result and
    the loading flag.

    Handlers are written in a small monad of resumptions: a handler is a
    finite tree of state writes, emitted effects (toasts, console lines) and
    [await] points whose answer is supplied by the environment.  JavaScript's
    [try]/[catch]/[finally] are combinators on these trees. *)

From Stdlib Require Import String Ascii List Bool Arith NArith Lia.
Import ListNotations.
Local Open Scope string_scope.
Local Open Scope list_scope.

(** ** JavaScript values tested for truthiness *)

(** The handlers test [sourceCode], [newEmail], [result.stderr],
    [error.message] and [errorData.message] for truthiness; each is either
    absent ([undefined]) or a string. *)
Inductive jsval : Type :=
| JUndefined
| JString (s : string).

(** [if (v)]: [undefined] and the empty string are falsy, every other string
    is truthy. *)
Definition truthy (v : jsval) : bool :=
  match v with
  | JUndefined => false
  | JString s => negb (String.eqb s "")
  end.

(** [v || d] where the result is used as a string. *)
Definition or_else (v : jsval) (d : string) : string :=
  match v with
  | JString s => if String.eqb s "" then d else s
  | JUndefined => d
  end.

(** ** [String.prototype.split] with a one-character separator *)

Definition newline : ascii := Ascii.ascii_of_nat 10.

(** [s.split(sep)]: the pieces between occurrences of [sep]; the empty
    string splits into one empty piece. *)
Fixpoint split (sep : ascii) (s : string) : list string :=
  match s with
  | EmptyString => [EmptyString]
  | String c rest =>
      if Ascii.eqb c sep then EmptyString :: split sep rest
      else match split sep rest with
           | [] => [String c EmptyString]
           | piece :: pieces => String c piece :: pieces
           end
  end.

(** [pieces.join(sep)], the inverse reading of [split]. *)
Fixpoint join (sep : ascii) (pieces : list string) : string :=
  match pieces with
  | [] => EmptyString
  | [p] => p
  | p :: ps => p ++ String sep (join sep ps)
  end.

Fixpoint contains (c : ascii) (s : string) : bool :=
  match s with
  | EmptyString => false
  | String d rest => Ascii.eqb d c || contains c rest
  end.

Fixpoint occurrences (c : ascii) (s : string) : nat :=
  match s with
  | EmptyString => 0
  | String d rest => (if Ascii.eqb d c then 1 else 0) + occurrences c rest
  end.

(** ** Component state: the eight [useState] cells *)

Record State : Type := mkState {
  output : option (list string);   (* useState<string[] | null>(null) *)
  isLoading : bool;                (* useState(false) *)
  isError : bool;                  (* useState(false) *)
  emails : list string;            (* useState<string[]>([]) *)
  isModalOpen : bool;              (* useState(false) *)
  newEmail : string;               (* useState('') *)
  isRemoving : bool;               (* useState(false) *)
  isDropdownOpen : bool            (* useState(false) *)
}.

Definition initialState : State :=
  mkState None false false [] false "" false false.

Definition setOutput (v : option (list string)) (s : State) : State :=
  mkState v (isLoading s) (isError s) (emails s) (isModalOpen s)
          (newEmail s) (isRemoving s) (isDropdownOpen s).
Definition setIsLoading (v : bool) (s : State) : State :=
  mkState (output s) v (isError s) (emails s) (isModalOpen s)
          (newEmail s) (isRemoving s) (isDropdownOpen s).
Definition setIsError (v : bool) (s : State) : State :=
  mkState (output s) (isLoading s) v (emails s) (isModalOpen s)
          (newEmail s) (isRemoving s) (isDropdownOpen s).
Definition setEmails (v : list string) (s : State) : State :=
  mkState (output s) (isLoading s) (isError s) v (isModalOpen s)
          (newEmail s) (isRemoving s) (isDropdownOpen s).
Definition setIsModalOpen (v : bool) (s : State) : State :=
  mkState (output s) (isLoading s) (isError s) (emails s) v
          (newEmail s) (isRemoving s) (isDropdownOpen s).
Definition setNewEmail (v : string) (s : State) : State :=
  mkState (output s) (isLoading s) (isError s) (emails s) (isModalOpen s)
          v (isRemoving s) (isDropdownOpen s).
(** [setIsRemoving(prev => !prev)]: the updater form reads the current cell. *)
Definition toggleIsRemoving (s : State) : State :=
  mkState (output s) (isLoading s) (isError s) (emails s) (isModalOpen s)
          (newEmail s) (negb (isRemoving s)) (isDropdownOpen s).

(** The execution result shown in the output box: the lines and the error
    colouring. *)
Definition executionResult (s : State) : option (list string) * bool :=
  (output s, isError s).

(** ** Errors, requests, responses *)

Record JsError : Type := mkError { err_message : jsval }.

Inductive Method : Type := GET | PUT.

(** The argument of [JSON.stringify] in a request body. *)
Inductive ReqBody : Type :=
| BodyContent (content : string)
| BodyEmail (email : string).

Record FetchReq : Type := mkReq {
  req_url : string;
  req_method : Method;
  req_body : option ReqBody
}.

(** What [await] gives back: the promise resolved or rejected. *)
Inductive Outcome (X : Type) : Type :=
| Resolved (x : X)
| Rejected (e : JsError).
Arguments Resolved {X} x.
Arguments Rejected {X} e.

(** The fields the handlers read from a parsed JSON body. *)
Record JsonObj : Type := mkJson {
  Access : option (list string);   (* [data.Access]; absent or null: None *)
  message : jsval                  (* [errorData.message] *)
}.

(** A [fetch] response: [response.ok] and what [response.json()] settles to
    ([Resolved None] is the JSON value [null]). *)
Record Response : Type := mkResponse {
  ok : bool;
  json : Outcome (option JsonObj)
}.

(** The [run] object of the execution service's answer. *)
Record RunResult : Type := mkRun {
  run_output : jsval;    (* result.output *)
  run_stderr : jsval     (* result.stderr *)
}.

(** What [executeCode] resolves to; [run] may be missing. *)
Record ExecData : Type := mkExec { run : option RunResult }.

(** The awaited calls. *)
Inductive Eff : Type -> Type :=
| Fetch (rq : FetchReq) : Eff Response
| ResponseJson (r : Response) : Eff (option JsonObj)
| ExecuteCode (language sourceCode : string) : Eff ExecData.

Inductive ToastStatus : Type := StatusSuccess | StatusError.

Record ToastOptions : Type := mkToast {
  title : string;
  description : string;
  status : ToastStatus;
  duration : N          (* milliseconds *)
}.

(** Observable effects, in program order. *)
Inductive Event : Type :=
| EvFetch (rq : FetchReq)                         (* a fetch was issued *)
| EvExecute (language sourceCode : string)        (* executeCode was called *)
| EvToast (t : ToastOptions)
| EvConsoleError (label : string) (e : JsError)
| EvConsoleLog (e : JsError).

Definition isNetworkCall (ev : Event) : bool :=
  match ev with
  | EvFetch _ | EvExecute _ _ => true
  | _ => false
  end.

(** ** Handlers as resumptions *)

Inductive Proc (A : Type) : Type :=
| Ret (a : A)
| Throw (e : JsError)
| SetState (f : State -> State) (k : Proc A)
| Emit (ev : Event) (k : Proc A)
| Await (X : Type) (rq : Eff X) (k : Outcome X -> Proc A).
Arguments Ret {A} a.
Arguments Throw {A} e.
Arguments SetState {A} f k.
Arguments Emit {A} ev k.
Arguments Await {A X} rq k.

Fixpoint bind {A B : Type} (p : Proc A) (f : A -> Proc B) : Proc B :=
  match p with
  | Ret a => f a
  | Throw e => Throw e
  | SetState g k => SetState g (bind k f)
  | Emit ev k => Emit ev (bind k f)
  | Await rq k => Await rq (fun o => bind (k o) f)
  end.

(** [try { p } catch (error) { h error }] *)
Fixpoint try_catch {A : Type} (p : Proc A) (h : JsError -> Proc A) : Proc A :=
  match p with
  | Ret a => Ret a
  | Throw e => h e
  | SetState g k => SetState g (try_catch k h)
  | Emit ev k => Emit ev (try_catch k h)
  | Await rq k => Await rq (fun o => try_catch (k o) h)
  end.

(** [try { p } finally { fin }]: [fin] runs on both exits and the exit of
    [p] is kept. *)
Fixpoint try_finally {A : Type} (p : Proc A) (fin : Proc unit) : Proc A :=
  match p with
  | Ret a => bind fin (fun _ => Ret a)
  | Throw e => bind fin (fun _ => Throw e)
  | SetState g k => SetState g (try_finally k fin)
  | Emit ev k => Emit ev (try_finally k fin)
  | Await rq k => Await rq (fun o => try_finally (k o) fin)
  end.

(** [await call]: a rejected promise throws at the await. *)
Definition await {X : Type} (rq : Eff X) : Proc X :=
  Await rq (fun o => match o with
                     | Resolved x => Ret x
                     | Rejected e => Throw e
                     end).

Definition set (f : State -> State) : Proc unit := SetState f (Ret tt).
Definition emit (ev : Event) : Proc unit := Emit ev (Ret tt).
Definition toast (t : ToastOptions) : Proc unit := emit (EvToast t).

Declare Scope proc_scope.
Delimit Scope proc_scope with proc.
Notation "x <- p ;; q" := (bind p (fun x => q))
  (at level 61, p at next level, right associativity) : proc_scope.
Notation "p ;; q" := (bind p (fun _ => q))
  (at level 61, right associativity) : proc_scope.
Local Open Scope proc_scope.

(** ** The environment and the two ways of running a handler *)

(** The remote side: what each [fetch] and each [executeCode] call settles
    to.  [response.json()] is answered by the response itself. *)
Record Env : Type := mkEnv {
  env_fetch : FetchReq -> Outcome Response;
  env_exec : string -> string -> Outcome ExecData
}.

Definition answer (env : Env) {X : Type} (rq : Eff X) : Outcome X :=
  match rq in Eff T return Outcome T with
  | Fetch r => env_fetch env r
  | ResponseJson r => json r
  | ExecuteCode l src => env_exec env l src
  end.

Definition issued {X : Type} (rq : Eff X) : list Event :=
  match rq with
  | Fetch r => [EvFetch r]
  | ResponseJson _ => []
  | ExecuteCode l src => [EvExecute l src]
  end.

Record Run (A : Type) : Type := mkRunOf {
  final : State;
  trace : list Event;
  exit : A + JsError
}.
Arguments mkRunOf {A} final trace exit.
Arguments final {A} r.
Arguments trace {A} r.
Arguments exit {A} r.

(** Run a handler to completion, every await answered at once. *)
Fixpoint exec (env : Env) {A : Type} (p : Proc A) (s : State) : Run A :=
  match p with
  | Ret a => mkRunOf s [] (inl a)
  | Throw e => mkRunOf s [] (inr e)
  | SetState f k => exec env k (f s)
  | Emit ev k =>
      let r := exec env k s in mkRunOf (final r) (ev :: trace r) (exit r)
  | Await rq k =>
      let r := exec env (k (answer env rq)) s in
      mkRunOf (final r) (issued rq ++ trace r) (exit r)
  end.

(** Run the synchronous part of a handler: up to its next await (or its
    end).  The third component is what remains to run. *)
Fixpoint advance {A : Type} (p : Proc A) (s : State)
  : State * list Event * Proc A :=
  match p with
  | SetState f k => advance k (f s)
  | Emit ev k => let '(s', tr, p') := advance k s in (s', ev :: tr, p')
  | Await rq _ => (s, issued rq, p)      (* the call is issued, then waits *)
  | _ => (s, [], p)
  end.

(** A handler stopped at an await has its call in flight. *)
Definition inFlight {A : Type} (p : Proc A) : bool :=
  match p with
  | Await _ _ => true
  | _ => false
  end.

(** The awaited call settles: continue up to the next await. *)
Definition resume (env : Env) {A : Type} (p : Proc A) (s : State)
  : State * list Event * Proc A :=
  match p with
  | Await rq k => advance (k (answer env rq)) s
  | _ => (s, [], p)
  end.

(** ** The component *)

Record Props : Type := mkProps {
  editor : option string;   (* editorRef.current; None when not mounted *)
  language : string;
  id : string
}.

(** [editorRef.current?.getValue()] *)
Definition getValue (props : Props) : jsval :=
  match editor props with
  | None => JUndefined
  | Some text => JString text
  end.

(** A string-typed use of a value that passed a truthiness guard. *)
Definition as_string (v : jsval) : string :=
  match v with
  | JString s => s
  | JUndefined => "undefined"
  end.

(** The [TypeError] of reading a property of [undefined] or [null]. *)
Definition typeError (property : string) : JsError :=
  mkError (JString ("Cannot read properties of undefined (reading '"
                      ++ property ++ "')")).

Definition errorToast (text : string) : ToastOptions :=
  mkToast "Error" text StatusError 6000%N.

Section Component.

Variable baseurl : string.
Variable props : Props.

Definition req_load : FetchReq :=
  mkReq (baseurl ++ "/api/codes/" ++ id props) GET None.
Definition req_save (content : string) : FetchReq :=
  mkReq (baseurl ++ "/api/codes/save/" ++ id props) PUT
        (Some (BodyContent content)).
Definition req_give (email : string) : FetchReq :=
  mkReq (baseurl ++ "/api/codes/give/" ++ id props) PUT
        (Some (BodyEmail email)).
Definition req_take (email : string) : FetchReq :=
  mkReq (baseurl ++ "/api/codes/take/" ++ id props) PUT
        (Some (BodyEmail email)).

(** Lines 46-71. *)
Definition fetchEmails : Proc unit :=
  try_catch
    (response <- await (Fetch req_load);;
     if ok response then
       data <- await (ResponseJson response);;
       match data with
       | None => Throw (typeError "Access")
       | Some d =>
           set (setEmails (match Access d with   (* data.Access || [] *)
                           | Some l => l
                           | None => []
                           end))
       end
     else Throw (mkError (JString "Failed to fetch emails")))
    (fun error =>
       emit (EvConsoleError "Error fetching emails:" error);;
       toast (errorToast "Unable to fetch email list.")).

(** Lines 76-95. *)
Definition runCode : Proc unit :=
  let sourceCode := getValue props in
  if negb (truthy sourceCode) then Ret tt
  else
    try_finally
      (try_catch
         (set (setIsLoading true);;
          data <- await (ExecuteCode (language props) (as_string sourceCode));;
          match run data with
          | None => Throw (typeError "output")
          | Some result =>
              match run_output result with
              | JUndefined => Throw (typeError "split")
              | JString out =>
                  set (setOutput (Some (split newline out)));;
                  if truthy (run_stderr result)
                  then set (setIsError true)
                  else set (setIsError false)
              end
          end)
         (fun error =>
            emit (EvConsoleLog error);;
            toast (mkToast "An error occurred."
                           (or_else (err_message error) "Unable to run code")
                           StatusError 6000%N)))
      (set (setIsLoading false)).

(** Lines 97-139. *)
Definition saveCode : Proc unit :=
  let content := getValue props in
  if negb (truthy content) then Ret tt
  else
    try_finally
      (try_catch
         (set (setIsLoading true);;
          response <- await (Fetch (req_save (as_string content)));;
          if ok response then
            toast (mkToast "Success" "Content saved successfully!"
                           StatusSuccess 6000%N)
          else
            errorData <- await (ResponseJson response);;
            match errorData with
            | None => Throw (typeError "message")
            | Some d =>
                toast (errorToast
                         (or_else (message d) "Failed to save content."))
            end)
         (fun error =>
            emit (EvConsoleError "Error:" error);;
            toast (errorToast "An unexpected error occurred.")))
      (set (setIsLoading false)).

(** Lines 141-182.  [emails] and [newEmail] are the closure's variables:
    the values of the two cells in the render the handler was created in.
    The guard is a truthiness test, so [newEmail] is taken as a JavaScript
    value. *)
Definition handleEmailSubmit (emails : list string) (newEmail : jsval)
  : Proc unit :=
  if truthy newEmail then
    try_catch
      (response <- await (Fetch (req_give (as_string newEmail)));;
       if ok response then
         set (setEmails (emails ++ [as_string newEmail]));;
         set (setNewEmail "");;
         set (setIsModalOpen false);;
         toast (mkToast "Access Granted"
                        ("Access granted to " ++ as_string newEmail)
                        StatusSuccess 6000%N)
       else
         errorData <- await (ResponseJson response);;
         match errorData with
         | None => Throw (typeError "message")
         | Some d =>
             toast (errorToast (or_else (message d) "Failed to add email."))
         end)
      (fun error =>
         emit (EvConsoleError "Error:" error);;
         toast (errorToast "An unexpected error occurred."))
  else Ret tt.

(** Lines 184-186. *)
Definition toggleRemoveMode : Proc unit := set toggleIsRemoving.

(** Lines 188-225.  [emails] is the closure's variable, as above. *)
Definition removeEmail (emails : list string) (emailToRemove : string)
  : Proc unit :=
  try_catch
    (response <- await (Fetch (req_take emailToRemove));;
     if ok response then
       set (setEmails
              (filter (fun email => negb (String.eqb email emailToRemove))
                      emails));;
       toast (mkToast "Access Revoked"
                      ("Access revoked for " ++ emailToRemove)
                      StatusSuccess 6000%N)
     else
       errorData <- await (ResponseJson response);;
       match errorData with
       | None => Throw (typeError "message")
       | Some d =>
           toast (errorToast (or_else (message d) "Failed to remove email."))
       end)
    (fun error =>
       emit (EvConsoleError "Error:" error);;
       toast (errorToast "An unexpected error occurred.")).

End Component.

(** Lines 234 and 244: the [isLoading] prop of the "Run Code" and of the
    "Save Code" button. *)
Definition runButton_isLoading (s : State) : bool := isLoading s.
Definition saveButton_isLoading (s : State) : bool := isLoading s.

(** ** The operations of the three controllers *)

Inductive Operation : Type :=
| OpLoadAccessList
| OpGrantAccess
| OpRevokeAccess (email : string)
| OpRun
| OpSave.

(** The handler an operation invokes, created in the render [render]. *)
Definition handlerOf (baseurl : string) (props : Props) (op : Operation)
           (render : State) : Proc unit :=
  match op with
  | OpLoadAccessList => fetchEmails baseurl props
  | OpGrantAccess =>
      handleEmailSubmit baseurl props (emails render) (JString (newEmail render))
  | OpRevokeAccess email => removeEmail baseurl props (emails render) email
  | OpRun => runCode props
  | OpSave => saveCode baseurl props
  end.

(** One operation from state [s], run to completion. *)
Definition perform (env : Env) (baseurl : string) (props : Props)
           (op : Operation) (s : State) : Run unit :=
  exec env (handlerOf baseurl props op s) s.

(** A [fetch] that resolved with [response.ok]. *)
Definition respondedOk (o : Outcome Response) : bool :=
  match o with
  | Resolved r => ok r
  | Rejected _ => false
  end.

(** A load that resolved with [response.ok] and a JSON object. *)
Definition loadResolved (o : Outcome Response) : option JsonObj :=
  match o with
  | Resolved r =>
      if ok r then match json r with
                   | Resolved (Some d) => Some d
                   | _ => None
                   end
      else None
  | Rejected _ => None
  end.

(** An execution that resolved with a [run] object carrying an [output]
    string. *)
Definition runResolved (o : Outcome ExecData) : option (string * jsval) :=
  match o with
  | Resolved d =>
      match run d with
      | Some r => match run_output r with
                  | JString out => Some (out, run_stderr r)
                  | JUndefined => None
                  end
      | None => None
      end
  | Rejected _ => None
  end.

(** Whether the remote call of an operation invoked in state [s] is a
    confirmed success. *)
Definition succeeds (env : Env) (baseurl : string) (props : Props)
           (op : Operation) (s : State) : bool :=
  match op with
  | OpLoadAccessList =>
      match loadResolved (env_fetch env (req_load baseurl props)) with
      | Some _ => true
      | None => false
      end
  | OpGrantAccess =>
      respondedOk (env_fetch env (req_give baseurl props (newEmail s)))
  | OpRevokeAccess email =>
      respondedOk (env_fetch env (req_take baseurl props email))
  | OpRun =>
      match runResolved (env_exec env (language props)
                                  (as_string (getValue props))) with
      | Some _ => true
      | None => false
      end
  | OpSave =>
      respondedOk (env_fetch env (req_save baseurl props
                                           (as_string (getValue props))))
  end.

(** A blank email in the sense of the access contract: nothing but white
    space (the empty string included). *)
Definition isSpace (c : ascii) : bool :=
  Ascii.eqb c " "%char || Ascii.eqb c (Ascii.ascii_of_nat 9)
  || Ascii.eqb c newline || Ascii.eqb c (Ascii.ascii_of_nat 13).

Fixpoint blank (s : string) : bool :=
  match s with
  | EmptyString => true
  | String c rest => isSpace c && blank rest
  end.

(** Revocation in the access contract's words: every entry equal to [email]
    is dropped and the others stay in their order. *)
Fixpoint withoutEmail (email : string) (l : list string) : list string :=
  match l with
  | [] => []
  | e :: rest =>
      if string_dec e email then withoutEmail email rest
      else e :: withoutEmail email rest
  end.

(** ** Inline handlers of the rendered tree (lines 250-318) *)

Definition setIsDropdownOpen (v : bool) (s : State) : State :=
  mkState (output s) (isLoading s) (isError s) (emails s) (isModalOpen s)
          (newEmail s) (isRemoving s) v.
(** [setIsDropdownOpen(prev => !prev)] *)
Definition toggleIsDropdownOpen (s : State) : State :=
  mkState (output s) (isLoading s) (isError s) (emails s) (isModalOpen s)
          (newEmail s) (isRemoving s) (negb (isDropdownOpen s)).

Inductive UiEvent : Type :=
| MenuClose                      (* line 250: Menu onClose *)
| MenuButtonClick                (* line 257: MenuButton onClick *)
| RemoveModeClick                (* line 278: toggleRemoveMode *)
| EnterNewEmailClick             (* line 281 *)
| ModalClose                     (* line 298: Modal onClose; line 318: Close *)
| InputChange (value : string).  (* line 309: Input onChange *)

Definition onUi (ev : UiEvent) : Proc unit :=
  match ev with
  | MenuClose => set (setIsDropdownOpen false)
  | MenuButtonClick => set toggleIsDropdownOpen
  | RemoveModeClick => toggleRemoveMode
  | EnterNewEmailClick => set (setIsModalOpen true)
  | ModalClose => set (setIsModalOpen false)
  | InputChange value => set (setNewEmail value)
  end.

(** ** The rendered menu and output box (lines 261-296) *)

Inductive MenuEntry : Type :=
| EmailEntry (key : nat) (email : string) (removeButton : bool)
| TextEntry (label : string).

(** [emails.map((email, index) => <MenuItem key={index}> ...)], the remove
    button present when [isRemoving]. *)
Fixpoint emailEntries (removing : bool) (index : nat) (l : list string)
  : list MenuEntry :=
  match l with
  | [] => []
  | email :: rest =>
      EmailEntry index email removing :: emailEntries removing (S index) rest
  end.

Definition menuList (s : State) : list MenuEntry :=
  emailEntries (isRemoving s) 0 (emails s)
  ++ [TextEntry (if isRemoving s then "Done Removing" else "Remove Email");
      TextEntry "Enter New Email"].

Definition doubleQuote : ascii := Ascii.ascii_of_nat 34.

(** Click "Run Code" to see the output here *)
Definition placeholderText : string :=
  "Click " ++ String doubleQuote
                     ("Run Code" ++ String doubleQuote
                                           " to see the output here").

Inductive BoxContent : Type :=
| Lines (texts : list string)      (* one <Text> per line *)
| Placeholder (text : string).

Record OutputBox : Type := mkBox {
  box_color : string;
  box_borderColor : string;
  box_content : BoxContent
}.

(** Lines 285-296; [output ? ... : ...] tests the array against [null]. *)
Definition outputBox (s : State) : OutputBox :=
  mkBox (if isError s then "red.400" else "")
        (if isError s then "red.500" else "#333")
        (match output s with
         | Some lines => Lines lines
         | None => Placeholder placeholderText
         end).

(** ** The component with calls in flight *)

(** The cells, the handlers stopped at an await, and the effects so far. *)
Record System : Type := mkSystem {
  cells : State;
  pending : list (Proc unit);
  log : list Event
}.

Definition initialSystem : System := mkSystem initialState [] [].

Inductive SysAction : Type :=
| Invoke (baseurl : string) (props : Props) (op : Operation)
    (* the user (or the mount effect) starts an operation *)
| Ui (ev : UiEvent)
| Settle (index : nat) (env : Env).
    (* the awaited call of the [index]-th pending handler settles *)

Definition keep (p : Proc unit) : list (Proc unit) :=
  if inFlight p then [p] else [].

(** Start a handler: run it up to its first await. *)
Definition launch (p : Proc unit) (sys : System) : System :=
  let '(s', tr, p') := advance p (cells sys) in
  mkSystem s' (pending sys ++ keep p') (log sys ++ tr).

Definition settle (index : nat) (env : Env) (sys : System) : System :=
  match nth_error (pending sys) index with
  | Some p =>
      let '(s', tr, p') := resume env p (cells sys) in
      mkSystem s'
               (firstn index (pending sys) ++ keep p'
                ++ skipn (S index) (pending sys))
               (log sys ++ tr)
  | None => sys
  end.

(** Handlers are the closures of the current render. *)
Definition sysStep (sys : System) (a : SysAction) : System :=
  match a with
  | Invoke baseurl props op =>
      launch (handlerOf baseurl props op (cells sys)) sys
  | Ui ev => launch (onUi ev) sys
  | Settle index env => settle index env sys
  end.

Definition runSystem (acts : list SysAction) (sys : System) : System :=
  fold_left sysStep acts sys.

(** ** Vocabulary of the properties *)

(** Whether the guard at the head of an operation lets it through. *)
Definition guardPasses (props : Props) (op : Operation) (s : State) : bool :=
  match op with
  | OpLoadAccessList | OpRevokeAccess _ => true
  | OpGrantAccess => truthy (JString (newEmail s))
  | OpRun | OpSave => truthy (getValue props)
  end.

(** The remote call of an operation invoked in state [s]. *)
Definition callOf (baseurl : string) (props : Props) (op : Operation)
           (s : State) : Event :=
  match op with
  | OpLoadAccessList => EvFetch (req_load baseurl props)
  | OpGrantAccess => EvFetch (req_give baseurl props (newEmail s))
  | OpRevokeAccess email => EvFetch (req_take baseurl props email)
  | OpRun => EvExecute (language props) (as_string (getValue props))
  | OpSave => EvFetch (req_save baseurl props (as_string (getValue props)))
  end.

Definition toasts (tr : list Event) : list ToastOptions :=
  flat_map (fun ev => match ev with
                      | EvToast t => [t]
                      | _ => []
                      end) tr.

(** [P] holds at every await and at the end of [p] run from [s], whatever
    the answers, provided the other handlers keep [P] while [p] waits. *)
Fixpoint guarantees (P : State -> Prop) {A : Type} (p : Proc A) (s : State)
  : Prop :=
  match p with
  | Ret _ | Throw _ => P s
  | SetState f k => guarantees P k (f s)
  | Emit _ k => guarantees P k s
  | Await _ k => P s /\ forall o s', P s' -> guarantees P (k o) s'
  end.

Definition resumable (P : State -> Prop) {A : Type} (p : Proc A) : Prop :=
  match p with
  | Await _ k => forall o s', P s' -> guarantees P (k o) s'
  | _ => True
  end.

(** Every single write of [p] keeps [P]. *)
Fixpoint keeps (P : State -> Prop) {A : Type} (p : Proc A) : Prop :=
  match p with
  | Ret _ | Throw _ => True
  | SetState f k => (forall s, P s -> P (f s)) /\ keeps P k
  | Emit _ k => keeps P k
  | Await _ k => forall o, keeps P (k o)
  end.

(** [p] never writes the loading flag. *)
Definition neutral {A : Type} (p : Proc A) : Prop :=
  forall b, keeps (fun s => isLoading s = b) p.

(** [p] run from [s] ends with the loading flag false, whatever the answers
    and whatever happens to the cells while it waits. *)
Fixpoint endsIdle {A : Type} (p : Proc A) (s : State) : Prop :=
  match p with
  | Ret _ | Throw _ => isLoading s = false
  | SetState f k => endsIdle k (f s)
  | Emit _ k => endsIdle k s
  | Await _ k => forall o s', endsIdle (k o) s'
  end.

Definition clearing {A : Type} (p : Proc A) : Prop :=
  match p with
  | Await _ k => forall o s', endsIdle (k o) s'
  | _ => False
  end.

(** The output cell and the error flag agree: the error colour comes with
    lines, lines are at least one, and no line holds a newline. *)
Definition outputInv (s : State) : Prop :=
  match output s with
  | None => isError s = false
  | Some lines =>
      lines <> [] /\ Forall (fun line => contains newline line = false) lines
  end.

(** The fallback text of a request the server refused. *)
Definition fallbackText (op : Operation) : string :=
  match op with
  | OpLoadAccessList => "Unable to fetch email list."
  | OpGrantAccess => "Failed to add email."
  | OpRevokeAccess _ => "Failed to remove email."
  | OpRun => "Unable to run code"
  | OpSave => "Failed to save content."
  end.

(** The [fetch] request of an operation invoked in state [s]; a run goes
    through [executeCode] instead. *)
Definition requestOf (baseurl : string) (props : Props) (op : Operation)
           (s : State) : option FetchReq :=
  match op with
  | OpLoadAccessList => Some (req_load baseurl props)
  | OpGrantAccess => Some (req_give baseurl props (newEmail s))
  | OpRevokeAccess email => Some (req_take baseurl props email)
  | OpRun => None
  | OpSave => Some (req_save baseurl props (as_string (getValue props)))
  end.

(** What the remote call of an operation rejected with, if it did. *)
Definition rejection (env : Env) (baseurl : string) (props : Props)
           (op : Operation) (s : State) : option JsError :=
  match requestOf baseurl props op s with
  | Some rq =>
      match env_fetch env rq with
      | Rejected e => Some e
      | Resolved _ => None
      end
  | None =>
      match env_exec env (language props) (as_string (getValue props)) with
      | Rejected e => Some e
      | Resolved _ => None
      end
  end.

(** [P] holds of the cells and every pending handler can be resumed under
    it. *)
Definition sysInv (P : State -> Prop) (sys : System) : Prop :=
  P (cells sys) /\ Forall (resumable P) (pending sys).

(** Every pending handler either will clear the loading flag or never
    writes it, and the flag is on only while one that will clear it is
    pending. *)
Definition spinnerInv (sys : System) : Prop :=
  Forall (fun p => clearing p \/ neutral p) (pending sys)
  /\ (isLoading (cells sys) = true -> Exists clearing (pending sys)).

(** ** Concrete environments and inputs used in the examples *)

Definition okResponse : Response :=
  mkResponse true (Resolved (Some (mkJson None JUndefined))).

Definition rejectedResponse (text : string) : Response :=
  mkResponse false (Resolved (Some (mkJson None (JString text)))).

(** Every fetch answers 200 with [access] in the [Access] field; every
    execution prints [out] and [err]. *)
Definition envOk (access : option (list string)) (out : string) (err : jsval)
  : Env :=
  mkEnv (fun _ => Resolved (mkResponse true
                              (Resolved (Some (mkJson access JUndefined)))))
        (fun _ _ => Resolved (mkExec (Some (mkRun (JString out) err)))).

(** Every fetch answers with a non-success status and a message; every
    execution throws. *)
Definition envRefuse : Env :=
  mkEnv (fun _ => Resolved (rejectedResponse "not allowed"))
        (fun _ _ => Rejected (mkError (JString "Request failed"))).

(** The network is down: every call rejects. *)
Definition envDown : Env :=
  mkEnv (fun _ => Rejected (mkError (JString "Failed to fetch")))
        (fun _ _ => Rejected (mkError (JString "Network Error"))).

Definition propsWith (text : string) : Props :=
  mkProps (Some text) "python" "42".

Definition stateAB : State :=
  mkState (Some ["old"]) false false ["a@x.com"; "b@x.com"] true "c@x.com"
          false true.

(** The output [1\n2\n3]. *)
Definition out123 : string :=
  String "1" (String newline (String "2" (String newline "3"))).

(** * Properties *)

(** ** Strings *)

Lemma eqb_empty_false (s : string) : s <> "" -> String.eqb s "" = false.
Proof. intros H. apply String.eqb_neq. exact H. Qed.

Lemma truthy_nonempty (s : string) : s <> "" -> truthy (JString s) = true.
Proof. intros H. simpl. now rewrite eqb_empty_false. Qed.

Lemma truthy_false_inv (v : jsval) :
  truthy v = false <-> v = JUndefined \/ v = JString "".
Proof.
  destruct v as [|s]; simpl.
  - split; auto.
  - split.
    + intros H. right. f_equal. apply String.eqb_eq.
      now apply negb_false_iff.
    + intros [H|H]; [discriminate|]. injection H as ->. reflexivity.
Qed.

Lemma split_not_nil (sep : ascii) (s : string) : split sep s <> [].
Proof.
  destruct s as [|c rest]; simpl; [discriminate|].
  destruct (Ascii.eqb c sep); [discriminate|].
  destruct (split sep rest); discriminate.
Qed.

Lemma join_split (sep : ascii) (s : string) : join sep (split sep s) = s.
Proof.
  induction s as [|c rest IH]; [reflexivity|].
  simpl. destruct (Ascii.eqb c sep) eqn:E.
  - apply Ascii.eqb_eq in E. subst c.
    pose proof (split_not_nil sep rest) as Hne.
    destruct (split sep rest) as [|p ps]; [contradiction|].
    simpl in *. now rewrite IH.
  - pose proof (split_not_nil sep rest) as Hne.
    destruct (split sep rest) as [|p ps]; [contradiction|].
    destruct ps as [|q qs]; simpl in *; now rewrite <- IH.
Qed.

Lemma split_pieces_clean (sep : ascii) (s : string) :
  Forall (fun piece => contains sep piece = false) (split sep s).
Proof.
  induction s as [|c rest IH]; simpl.
  - constructor; [reflexivity|constructor].
  - destruct (Ascii.eqb c sep) eqn:E.
    + constructor; [reflexivity|exact IH].
    + destruct (split sep rest) as [|p ps].
      * constructor; [simpl; now rewrite E|constructor].
      * inversion IH as [|? ? Hp Hps]; subst.
        constructor; [simpl; now rewrite E|exact Hps].
Qed.

Lemma length_split (sep : ascii) (s : string) :
  List.length (split sep s) = S (occurrences sep s).
Proof.
  induction s as [|c rest IH]; [reflexivity|].
  simpl. destruct (Ascii.eqb c sep).
  - simpl. now rewrite IH.
  - pose proof (split_not_nil sep rest) as Hne.
    destruct (split sep rest) as [|p ps]; [contradiction|].
    simpl in *. exact IH.
Qed.

Lemma filter_withoutEmail (email : string) (l : list string) :
  filter (fun e => negb (String.eqb e email)) l = withoutEmail email l.
Proof.
  induction l as [|e rest IH]; [reflexivity|].
  simpl. destruct (string_dec e email) as [->|Hne].
  - now rewrite String.eqb_refl.
  - apply String.eqb_neq in Hne. rewrite Hne. simpl. now rewrite IH.
Qed.

Lemma withoutEmail_not_In (email : string) (l : list string) :
  ~ In email (withoutEmail email l).
Proof.
  induction l as [|e rest IH]; simpl; [tauto|].
  destruct (string_dec e email) as [->|Hne]; [exact IH|].
  simpl. intros [H|H]; [now apply Hne|now apply IH].
Qed.

Lemma withoutEmail_keeps (email other : string) (l : list string) :
  other <> email ->
  filter (String.eqb other) (withoutEmail email l) = filter (String.eqb other) l.
Proof.
  intros Hne. induction l as [|e rest IH]; [reflexivity|].
  simpl. destruct (string_dec e email) as [->|He].
  - apply String.eqb_neq in Hne. now rewrite Hne.
  - simpl. now rewrite IH.
Qed.

(** ** The resumption monad *)

(** Running [try ... finally] is running the body, then the cleanup; when the
    cleanup is a single state write, that write is the last one. *)
Lemma exec_try_finally_set (env : Env) (A : Type) (p : Proc A)
      (f : State -> State) (s : State) :
  final (exec env (try_finally p (set f)) s) = f (final (exec env p s)) /\
  trace (exec env (try_finally p (set f)) s) = trace (exec env p s) /\
  exit (exec env (try_finally p (set f)) s) = exit (exec env p s).
Proof.
  revert s. induction p as [a|e|g k IH|ev k IH|X rq k IH]; intros s; simpl.
  - auto.
  - auto.
  - apply IH.
  - destruct (IH s) as (H1 & H2 & H3). rewrite H1, H2, H3. auto.
  - destruct (IH (answer env rq) s) as (H1 & H2 & H3).
    rewrite H1, H2, H3. auto.
Qed.

(** Running to completion is running to the next await, answering it, and
    running on. *)
Lemma exec_advance (env : Env) (A : Type) (p : Proc A) (s : State) :
  let '(s1, tr1, p1) := advance p s in
  match p1 with
  | Await rq k =>
      final (exec env p s) = final (exec env (k (answer env rq)) s1)
  | _ => final (exec env p s) = s1
  end.
Proof.
  revert s. induction p as [a|e|g k IH|ev k IH|X rq k IH]; intros s; simpl;
    try reflexivity.
  - apply IH.
  - specialize (IH s). destruct (advance k s) as [[s1 tr1] p1]. exact IH.
Qed.

(** ** DocumentAccessController *)

(** C6: after a successful [loadAccessList] the local access list is exactly
    the sequence the server returned, in its order and with its duplicates,
    and it is empty when the [Access] field is absent. *)
Theorem loadAccessList_success (env : Env) (baseurl : string) (props : Props)
        (s : State) (d : JsonObj) :
  loadResolved (env_fetch env (req_load baseurl props)) = Some d ->
  (forall l, Access d = Some l ->
             emails (final (perform env baseurl props OpLoadAccessList s)) = l)
  /\ (Access d = None ->
      emails (final (perform env baseurl props OpLoadAccessList s)) = []).
Proof.
  intros H. unfold perform, handlerOf, fetchEmails. simpl.
  unfold loadResolved in H.
  destruct (env_fetch env (req_load baseurl props)) as [r|e]; [|discriminate].
  simpl. destruct (ok r); [|discriminate]. simpl.
  destruct (json r) as [[d'|]|e]; try discriminate.
  injection H as ->. simpl.
  split; [intros l Hl|intros Hl]; now rewrite Hl.
Qed.

Lemma loadAccessList_success_witness :
  emails (final (perform (envOk (Some ["b@x.com"; "a@x.com"; "b@x.com"]) "" JUndefined)
                         "http://h" (propsWith "x") OpLoadAccessList stateAB))
  = ["b@x.com"; "a@x.com"; "b@x.com"]
  /\ emails (final (perform (envOk None "" JUndefined)
                            "http://h" (propsWith "x") OpLoadAccessList stateAB))
     = [].
Proof.
  split.
  - apply (proj1 (loadAccessList_success
                    (envOk (Some ["b@x.com"; "a@x.com"; "b@x.com"]) "" JUndefined)
                    "http://h" (propsWith "x") stateAB
                    (mkJson (Some ["b@x.com"; "a@x.com"; "b@x.com"]) JUndefined)
                    eq_refl)).
    reflexivity.
  - apply (proj2 (loadAccessList_success
                    (envOk None "" JUndefined)
                    "http://h" (propsWith "x") stateAB
                    (mkJson None JUndefined) eq_refl)).
    reflexivity.
Defined.

(** C2: a successful [grantAccess] of a non-empty email appends it to the
    prior access list as its last element (no deduplication), empties the
    pending-email buffer and closes the add-email modal. *)
Theorem grantAccess_success (env : Env) (baseurl : string) (props : Props)
        (s : State) :
  newEmail s <> "" ->
  respondedOk (env_fetch env (req_give baseurl props (newEmail s))) = true ->
  emails (final (perform env baseurl props OpGrantAccess s))
    = emails s ++ [newEmail s]
  /\ last (emails (final (perform env baseurl props OpGrantAccess s))) ""
     = newEmail s
  /\ newEmail (final (perform env baseurl props OpGrantAccess s)) = ""
  /\ isModalOpen (final (perform env baseurl props OpGrantAccess s)) = false.
Proof.
  intros Hne Hok. unfold perform, handlerOf, handleEmailSubmit.
  rewrite (truthy_nonempty _ Hne). simpl.
  unfold respondedOk in Hok.
  destruct (env_fetch env (req_give baseurl props (newEmail s))) as [r|e];
    [|discriminate].
  simpl. rewrite Hok. simpl.
  repeat split. apply last_last.
Qed.

Lemma grantAccess_success_witness :
  emails (final (perform (envOk None "" JUndefined) "http://h" (propsWith "x")
                         OpGrantAccess
                         (setNewEmail "a@x.com" stateAB)))
  = ["a@x.com"; "b@x.com"; "a@x.com"].
Proof.
  apply (grantAccess_success (envOk None "" JUndefined) "http://h"
                             (propsWith "x") (setNewEmail "a@x.com" stateAB)).
  - discriminate.
  - reflexivity.
Defined.

(** The append uses the list of the render the handler was created in,
    whatever the cells hold when the response arrives. *)
Lemma grantAccess_uses_render (env : Env) (baseurl : string) (props : Props)
      (render : list string) (email : string) (s : State) :
  email <> "" ->
  respondedOk (env_fetch env (req_give baseurl props email)) = true ->
  emails (final (exec env (handleEmailSubmit baseurl props render
                                             (JString email)) s))
  = render ++ [email].
Proof.
  intros Hne Hok. unfold handleEmailSubmit.
  rewrite (truthy_nonempty _ Hne). simpl.
  unfold respondedOk in Hok.
  destruct (env_fetch env (req_give baseurl props email)) as [r|e];
    [|discriminate].
  simpl. rewrite Hok. reflexivity.
Qed.

(** C3: a successful [revokeAccess] leaves the prior access list without any
    entry equal to the email, the other entries in their original order. *)
Theorem revokeAccess_success (env : Env) (baseurl : string) (props : Props)
        (email : string) (s : State) :
  respondedOk (env_fetch env (req_take baseurl props email)) = true ->
  emails (final (perform env baseurl props (OpRevokeAccess email) s))
    = withoutEmail email (emails s)
  /\ ~ In email (emails (final (perform env baseurl props
                                        (OpRevokeAccess email) s)))
  /\ (forall other, other <> email ->
        filter (String.eqb other)
               (emails (final (perform env baseurl props
                                       (OpRevokeAccess email) s)))
        = filter (String.eqb other) (emails s)).
Proof.
  intros Hok. unfold perform, handlerOf, removeEmail. simpl.
  unfold respondedOk in Hok.
  destruct (env_fetch env (req_take baseurl props email)) as [r|e];
    [|discriminate].
  simpl. rewrite Hok. simpl. rewrite filter_withoutEmail.
  split; [reflexivity|split].
  - apply withoutEmail_not_In.
  - intros other Hne. now apply withoutEmail_keeps.
Qed.

Lemma revokeAccess_success_witness :
  emails (final (perform (envOk None "" JUndefined) "http://h" (propsWith "x")
                         (OpRevokeAccess "a@x.com") stateAB))
  = ["b@x.com"].
Proof.
  apply (revokeAccess_success (envOk None "" JUndefined) "http://h"
                              (propsWith "x") "a@x.com" stateAB).
  reflexivity.
Defined.

(** ** ExecutionController *)

(** C4: when [run] on a non-empty source resolves with [output] and
    [stderr], the output lines are [output] split at its newlines (joined by
    newlines they give [output] back, none contains a newline, and there is
    one more line than there are newlines) and [isError] is true exactly
    when [stderr] is a non-empty string. *)
Theorem run_success_result (env : Env) (props : Props) (src out : string)
        (stderr : jsval) (s : State) :
  editor props = Some src ->
  src <> "" ->
  runResolved (env_exec env (language props) src) = Some (out, stderr) ->
  output (final (exec env (runCode props) s)) = Some (split newline out)
  /\ isError (final (exec env (runCode props) s)) = truthy stderr
  /\ (isError (final (exec env (runCode props) s)) = true <->
      exists text, stderr = JString text /\ text <> "")
  /\ join newline (split newline out) = out
  /\ Forall (fun line => contains newline line = false) (split newline out)
  /\ List.length (split newline out) = S (occurrences newline out).
Proof.
  intros Hed Hne Hres.
  assert (Hfinal : output (final (exec env (runCode props) s))
                   = Some (split newline out)
                   /\ isError (final (exec env (runCode props) s))
                      = truthy stderr).
  { unfold runCode, getValue. rewrite Hed, (truthy_nonempty _ Hne). simpl.
    unfold runResolved in Hres.
    destruct (env_exec env (language props) src) as [d|e]; [|discriminate].
    simpl. destruct (run d) as [result|]; [|discriminate].
    destruct result as [o e]. simpl in *.
    destruct o as [|o]; [discriminate|].
    injection Hres as -> ->. simpl.
    destruct (truthy stderr); simpl; auto. }
  destruct Hfinal as [Hout Herr].
  split; [exact Hout|]. split; [exact Herr|]. split.
  - rewrite Herr. destruct stderr as [|text]; simpl.
    + split; [discriminate|]. intros (t & Ht & _). discriminate.
    + split.
      * intros H. exists text. split; [reflexivity|].
        intros ->. discriminate.
      * intros (t & Ht & Hnz). injection Ht as <-.
        now rewrite eqb_empty_false.
  - split; [apply join_split|].
    split; [apply split_pieces_clean|apply length_split].
Qed.

Lemma run_success_result_witness :
  output (final (exec (envOk None out123 (JString "")) (runCode (propsWith "print(1)"))
                      stateAB))
  = Some ["1"; "2"; "3"]
  /\ isError (final (exec (envOk None out123 (JString ""))
                          (runCode (propsWith "print(1)")) stateAB))
     = false
  /\ isError (final (exec (envOk None "oops" (JString "TypeError"))
                          (runCode (propsWith "print(1)")) stateAB))
     = true.
Proof.
  destruct (run_success_result (envOk None out123 (JString ""))
                               (propsWith "print(1)") "print(1)" out123
                               (JString "") stateAB eq_refl
                               ltac:(discriminate) eq_refl)
    as (Hlines & Hflag & _).
  destruct (run_success_result (envOk None "oops" (JString "TypeError"))
                               (propsWith "print(1)") "print(1)" "oops"
                               (JString "TypeError") stateAB eq_refl
                               ltac:(discriminate) eq_refl)
    as (_ & Hflag' & _).
  exact (conj Hlines (conj Hflag Hflag')).
Defined.

(** C5: a [run] on a non-empty source ends with the loading flag false,
    whether the execution call resolves or throws, and when it throws the
    execution result (lines and error flag) is the one from before the
    call. *)
Theorem run_clears_loading (env : Env) (props : Props) (src : string)
        (s : State) :
  editor props = Some src ->
  src <> "" ->
  isLoading (final (exec env (runCode props) s)) = false
  /\ (runResolved (env_exec env (language props) src) = None ->
      executionResult (final (exec env (runCode props) s))
      = executionResult s).
Proof.
  intros Hed Hne. unfold runCode, getValue.
  rewrite Hed, (truthy_nonempty _ Hne). cbv beta iota zeta. simpl negb.
  cbv iota. split.
  - match goal with
    | |- context [exec env (try_finally ?p (set ?f)) s] =>
        rewrite (proj1 (exec_try_finally_set env unit p f s))
    end.
    reflexivity.
  - intros Hres. simpl. unfold runResolved in Hres.
    destruct (env_exec env (language props) src) as [d|e]; simpl;
      [|reflexivity].
    destruct (run d) as [result|]; simpl; [|reflexivity].
    destruct (run_output result); simpl; [reflexivity|discriminate].
Qed.

Lemma run_clears_loading_witness :
  isLoading (final (exec envDown (runCode (propsWith "print(1)"))
                         (setIsLoading true stateAB))) = false
  /\ executionResult (final (exec envDown (runCode (propsWith "print(1)"))
                                  stateAB))
     = (Some ["old"], false).
Proof.
  split.
  - apply (run_clears_loading envDown (propsWith "print(1)") "print(1)"
                              (setIsLoading true stateAB));
      [reflexivity|discriminate].
  - apply (proj2 (run_clears_loading envDown (propsWith "print(1)")
                                     "print(1)" stateAB eq_refl
                                     ltac:(discriminate))).
    reflexivity.
Defined.

(** ** PersistenceController *)

(** C9: [save] with empty or absent content issues no network call and
    changes no state; a failing [save] of non-empty content leaves the
    access list and the execution result as they were and ends with the
    loading flag false. *)
Theorem save_guard_and_isolation (env : Env) (baseurl : string)
        (props : Props) (s : State) :
  (editor props = None \/ editor props = Some "" ->
   final (perform env baseurl props OpSave s) = s
   /\ trace (perform env baseurl props OpSave s) = [])
  /\ (forall content,
        editor props = Some content -> content <> "" ->
        respondedOk (env_fetch env (req_save baseurl props content)) = false ->
        emails (final (perform env baseurl props OpSave s)) = emails s
        /\ executionResult (final (perform env baseurl props OpSave s))
           = executionResult s
        /\ isLoading (final (perform env baseurl props OpSave s)) = false).
Proof.
  unfold perform, handlerOf, saveCode, getValue. split.
  - intros [H|H]; rewrite H; simpl; auto.
  - intros content Hed Hne Hfail.
    rewrite Hed, (truthy_nonempty _ Hne). simpl.
    unfold respondedOk in Hfail.
    destruct (env_fetch env (req_save baseurl props content)) as [r|e]; simpl;
      [|auto].
    rewrite Hfail. simpl.
    destruct (json r) as [[d|]|e]; simpl; auto.
Qed.

Lemma save_guard_and_isolation_witness :
  (final (perform envDown "http://h" (propsWith "") OpSave stateAB) = stateAB
   /\ trace (perform envDown "http://h" (propsWith "") OpSave stateAB) = [])
  /\ (emails (final (perform envRefuse "http://h" (propsWith "print(1)")
                             OpSave stateAB)) = ["a@x.com"; "b@x.com"]
      /\ executionResult (final (perform envRefuse "http://h"
                                         (propsWith "print(1)") OpSave stateAB))
         = (Some ["old"], false)
      /\ isLoading (final (perform envRefuse "http://h" (propsWith "print(1)")
                                   OpSave stateAB)) = false).
Proof.
  split.
  - apply (proj1 (save_guard_and_isolation envDown "http://h" (propsWith "")
                                           stateAB)).
    right. reflexivity.
  - apply (proj2 (save_guard_and_isolation envRefuse "http://h"
                                           (propsWith "print(1)") stateAB)
                 "print(1)");
      [reflexivity|discriminate|reflexivity].
Defined.

(** ** Failure paths *)

Ltac failing_fetch Hfail :=
  unfold respondedOk in Hfail;
  match type of Hfail with
  | context [env_fetch ?env ?rq] =>
      destruct (env_fetch env rq) as [r|e]; simpl; [|auto];
      rewrite Hfail; simpl;
      destruct (json r) as [[d|]|e]; simpl; auto
  end.

(** C10: when [grantAccess] of a non-empty email fails (non-success
    response or thrown error) neither the modal flag nor the pending-email
    buffer is written: an open modal stays open and the buffer still holds
    the email. *)
Theorem grantAccess_failure_keeps_input (env : Env) (baseurl : string)
        (props : Props) (s : State) :
  newEmail s <> "" ->
  respondedOk (env_fetch env (req_give baseurl props (newEmail s))) = false ->
  isModalOpen (final (perform env baseurl props OpGrantAccess s))
    = isModalOpen s
  /\ newEmail (final (perform env baseurl props OpGrantAccess s)) = newEmail s
  /\ (isModalOpen s = true ->
      isModalOpen (final (perform env baseurl props OpGrantAccess s)) = true).
Proof.
  intros Hne Hfail.
  assert (H : final (perform env baseurl props OpGrantAccess s) = s).
  { unfold perform, handlerOf, handleEmailSubmit.
    rewrite (truthy_nonempty _ Hne). simpl. failing_fetch Hfail. }
  rewrite H. auto.
Qed.

Lemma grantAccess_failure_keeps_input_witness :
  isModalOpen (final (perform envRefuse "http://h" (propsWith "x")
                              OpGrantAccess stateAB)) = true
  /\ newEmail (final (perform envDown "http://h" (propsWith "x")
                              OpGrantAccess stateAB)) = "c@x.com".
Proof.
  split.
  - apply (grantAccess_failure_keeps_input envRefuse "http://h"
                                           (propsWith "x") stateAB);
      [discriminate|reflexivity|reflexivity].
  - apply (proj1 (proj2 (grantAccess_failure_keeps_input
                           envDown "http://h" (propsWith "x") stateAB
                           ltac:(discriminate) eq_refl))).
Defined.

(** C1: for each of the five operations, when its remote call is not a
    confirmed success (the call throws or rejects, or the response has a
    non-success status) the access list and the execution result are the
    ones from before the operation.  The only cell a failing operation
    writes is the loading flag of [run] and [save], which ends false. *)
Theorem failure_leaves_local_state (env : Env) (baseurl : string)
        (props : Props) (op : Operation) (s : State) :
  succeeds env baseurl props op s = false ->
  emails (final (perform env baseurl props op s)) = emails s
  /\ executionResult (final (perform env baseurl props op s))
     = executionResult s
  /\ (final (perform env baseurl props op s) = s
      \/ ((op = OpRun \/ op = OpSave)
          /\ final (perform env baseurl props op s) = setIsLoading false s)).
Proof.
  intros Hfail.
  assert (H : final (perform env baseurl props op s) = s
              \/ ((op = OpRun \/ op = OpSave)
                  /\ final (perform env baseurl props op s)
                     = setIsLoading false s)).
  { unfold perform, handlerOf. destruct op as [| |email| |]; simpl in Hfail.
    - (* loadAccessList *)
      left. unfold fetchEmails, loadResolved in *. simpl.
      destruct (env_fetch env (req_load baseurl props)) as [r|e]; simpl;
        [|reflexivity].
      destruct (ok r); simpl; [|reflexivity].
      destruct (json r) as [[d|]|e]; simpl; try reflexivity. discriminate.
    - (* grantAccess *)
      left. unfold handleEmailSubmit.
      destruct (truthy (JString (newEmail s))); [|reflexivity].
      simpl as_string. simpl. failing_fetch Hfail.
    - (* revokeAccess *)
      left. unfold removeEmail. simpl. failing_fetch Hfail.
    - (* run *)
      unfold runCode.
      destruct (truthy (getValue props)); simpl negb; cbv iota;
        [right|left; reflexivity].
      split; [now left|]. simpl. unfold runResolved in Hfail.
      destruct (env_exec env (language props) (as_string (getValue props)))
        as [d|e]; simpl; [|reflexivity].
      destruct (run d) as [result|]; simpl; [|reflexivity].
      destruct (run_output result); simpl; [reflexivity|discriminate].
    - (* save *)
      unfold saveCode.
      destruct (truthy (getValue props)); simpl negb; cbv iota;
        [right|left; reflexivity].
      split; [now right|]. simpl. failing_fetch Hfail. }
  destruct H as [H|[Hop H]].
  - rewrite H. auto.
  - rewrite H. repeat split. right. split; [exact Hop|].
    reflexivity.
Qed.

Lemma failure_leaves_local_state_witness :
  emails (final (perform envRefuse "http://h" (propsWith "print(1)")
                         (OpRevokeAccess "a@x.com") stateAB))
  = ["a@x.com"; "b@x.com"]
  /\ executionResult (final (perform envDown "http://h" (propsWith "print(1)")
                                     OpRun stateAB))
     = (Some ["old"], false).
Proof.
  split.
  - apply (failure_leaves_local_state envRefuse "http://h"
                                      (propsWith "print(1)")
                                      (OpRevokeAccess "a@x.com") stateAB).
    reflexivity.
  - apply (proj1 (proj2 (failure_leaves_local_state
                           envDown "http://h" (propsWith "print(1)")
                           OpRun stateAB eq_refl))).
Defined.

(** ** The guard of [grantAccess] *)

(** C8 as stated fails for a blank email: a single space passes the guard,
    the request is sent, and on success the space is appended to the access
    list. *)
Lemma grantAccess_blank_counterexample :
  blank " " = true
  /\ existsb isNetworkCall
       (trace (perform (envOk None "" JUndefined) "http://h" (propsWith "x")
                       OpGrantAccess (setNewEmail " " initialState))) = true
  /\ emails (final (perform (envOk None "" JUndefined) "http://h"
                            (propsWith "x") OpGrantAccess
                            (setNewEmail " " initialState))) = [" "].
Proof. repeat split. Qed.

(** C8, amended: [grantAccess] is a no-op (no network call, no state
    change) when the pending email is the empty string or [undefined]; every
    non-empty email, a whitespace-only one included, passes the guard and
    its request is sent. *)
Theorem grantAccess_guard (env : Env) (baseurl : string) (props : Props)
        (render : list string) (v : jsval) (s : State) :
  (v = JUndefined \/ v = JString "" ->
   final (exec env (handleEmailSubmit baseurl props render v) s) = s
   /\ trace (exec env (handleEmailSubmit baseurl props render v) s) = [])
  /\ (forall email, v = JString email -> email <> "" ->
        hd_error (trace (exec env (handleEmailSubmit baseurl props render v) s))
        = Some (EvFetch (req_give baseurl props email))).
Proof.
  split.
  - intros H. apply truthy_false_inv in H. unfold handleEmailSubmit.
    rewrite H. simpl. auto.
  - intros email -> Hne. unfold handleEmailSubmit.
    rewrite (truthy_nonempty _ Hne). reflexivity.
Qed.

Lemma grantAccess_guard_witness :
  (final (exec envDown (handleEmailSubmit "http://h" (propsWith "x")
                                          ["a@x.com"] JUndefined) stateAB)
   = stateAB
   /\ trace (exec envDown (handleEmailSubmit "http://h" (propsWith "x")
                                             ["a@x.com"] JUndefined) stateAB)
      = [])
  /\ hd_error (trace (exec envDown
                           (handleEmailSubmit "http://h" (propsWith "x")
                                              ["a@x.com"] (JString " "))
                           stateAB))
     = Some (EvFetch (req_give "http://h" (propsWith "x") " ")).
Proof.
  split.
  - apply (proj1 (grantAccess_guard envDown "http://h" (propsWith "x")
                                    ["a@x.com"] JUndefined stateAB)).
    left. reflexivity.
  - apply (proj2 (grantAccess_guard envDown "http://h" (propsWith "x")
                                    ["a@x.com"] (JString " ") stateAB) " ");
      [reflexivity|discriminate].
Defined.

(** ** The loading flag *)

(** C7 as stated fails: from the initial state, starting a run sets the
    flag the Save button observes; a save started then and answered while
    the run is still awaiting its result clears the flag the Run button
    observes. *)
Lemma loading_flag_counterexample :
  let '(s1, _, run1) := advance (runCode (propsWith "print(1)")) initialState in
  let '(s2, _, save1) := advance (saveCode "http://h" (propsWith "print(1)")) s1 in
  let '(s3, _, save2) := resume (envOk None "" JUndefined) save1 s2 in
  inFlight run1 = true
  /\ saveButton_isLoading initialState = false
  /\ saveButton_isLoading s1 = true
  /\ inFlight save1 = true
  /\ inFlight save2 = false
  /\ runButton_isLoading s2 = true
  /\ runButton_isLoading s3 = false.
Proof. simpl. repeat split. Qed.

(** C7, amended: the Run and the Save button observe one and the same
    loading flag.  With a non-empty source, a run or a save that has issued
    its call has set the flag for both buttons, and once the call of either
    has settled the flag is cleared for both, whatever the other is doing. *)
Theorem loading_flag_shared (env : Env) (baseurl : string) (props : Props)
        (src : string) (s : State) :
  editor props = Some src ->
  src <> "" ->
  runButton_isLoading s = saveButton_isLoading s
  /\ (let '(s1, _, run1) := advance (runCode props) s in
      inFlight run1 = true
      /\ saveButton_isLoading s1 = true
      /\ forall s', saveButton_isLoading (final (exec env run1 s')) = false)
  /\ (let '(s1, _, save1) := advance (saveCode baseurl props) s in
      inFlight save1 = true
      /\ runButton_isLoading s1 = true
      /\ forall s', runButton_isLoading (final (exec env save1 s')) = false).
Proof.
  intros Hed Hne. split; [reflexivity|].
  unfold runCode, saveCode, getValue.
  rewrite Hed, (truthy_nonempty _ Hne). simpl. split.
  - repeat split. intros s'.
    destruct (env_exec env (language props) src) as [d|e]; simpl;
      [|reflexivity].
    destruct (run d) as [result|]; simpl; [|reflexivity].
    destruct (run_output result); simpl; [reflexivity|].
    destruct (truthy (run_stderr result)); reflexivity.
  - repeat split. intros s'.
    destruct (env_fetch env (req_save baseurl props src)) as [r|e]; simpl;
      [|reflexivity].
    destruct (ok r); simpl; [reflexivity|].
    destruct (json r) as [[d|]|e]; reflexivity.
Qed.

Lemma loading_flag_shared_witness :
  let '(s1, _, run1) := advance (runCode (propsWith "print(1)")) initialState in
  inFlight run1 = true
  /\ saveButton_isLoading s1 = true
  /\ forall s', saveButton_isLoading (final (exec envDown run1 s')) = false.
Proof.
  apply (proj1 (proj2 (loading_flag_shared envDown "http://h"
                                           (propsWith "print(1)") "print(1)"
                                           initialState eq_refl
                                           ltac:(discriminate)))).
Defined.

(** * Further properties of the handlers *)

(** Case analysis on everything the environment can answer. *)
Ltac answers :=
  repeat match goal with
         | |- context [truthy ?v] => destruct (truthy v)
         end;
  repeat (simpl;
          match goal with
          | |- context [env_fetch ?env ?rq] =>
              destruct (env_fetch env rq) as [?r|?e]
          | |- context [env_exec ?env ?l ?src] =>
              destruct (env_exec env l src) as [?d|?e]
          | |- context [ok ?r] => destruct (ok r)
          | |- context [json ?r] => destruct (json r) as [[?d|]|?e]
          | |- context [run ?d] => destruct (run d) as [?result|]
          | |- context [run_output ?x] => destruct (run_output x)
          | |- context [truthy ?v] => destruct (truthy v)
          end);
  simpl.

(** ** Exceptions, calls and notifications *)

(** X1: no handler lets an exception escape: whatever the remote side answers
    (rejection, bad status, unreadable or null body, missing fields), every
    operation ends normally. *)
Theorem handlers_never_throw (env : Env) (baseurl : string) (props : Props)
        (op : Operation) (render s : State) :
  exit (exec env (handlerOf baseurl props op render) s) = inl tt.
Proof.
  destruct op; unfold handlerOf, fetchEmails, handleEmailSubmit, removeEmail,
    runCode, saveCode; answers; reflexivity.
Qed.

(** X2: an operation issues its one remote call when its guard passes and none
    otherwise; nothing is retried. *)
Theorem one_call_per_operation (env : Env) (baseurl : string) (props : Props)
        (op : Operation) (s : State) :
  filter isNetworkCall (trace (perform env baseurl props op s))
  = if guardPasses props op s then [callOf baseurl props op s] else [].
Proof.
  unfold perform.
  destruct op; unfold handlerOf, fetchEmails, handleEmailSubmit, removeEmail,
    runCode, saveCode, guardPasses, callOf.
  - answers; reflexivity.
  - destruct (truthy (JString (newEmail s))); [|reflexivity].
    answers; reflexivity.
  - answers; reflexivity.
  - destruct (truthy (getValue props)); [|reflexivity].
    answers; reflexivity.
  - destruct (truthy (getValue props)); [|reflexivity].
    answers; reflexivity.
Qed.

(** X3: an operation that passed its guard and whose call is not a confirmed
    success shows exactly one notification, an error lasting six seconds. *)
Theorem failure_shows_one_error (env : Env) (baseurl : string)
        (props : Props) (op : Operation) (s : State) :
  guardPasses props op s = true ->
  succeeds env baseurl props op s = false ->
  exists t, toasts (trace (perform env baseurl props op s)) = [t]
            /\ status t = StatusError
            /\ duration t = 6000%N.
Proof.
  unfold perform, guardPasses, succeeds.
  destruct op; unfold handlerOf, fetchEmails, handleEmailSubmit, removeEmail,
    runCode, saveCode, respondedOk, loadResolved, runResolved;
    intros Hguard Hfail; try rewrite Hguard; revert Hfail; answers;
    intros Hfail; try discriminate; eexists; repeat split.
Qed.

Lemma failure_shows_one_error_witness :
  exists t, toasts (trace (perform envDown "http://h" (propsWith "print(1)")
                                   OpLoadAccessList stateAB)) = [t]
            /\ status t = StatusError
            /\ duration t = 6000%N.
Proof.
  apply (failure_shows_one_error envDown "http://h" (propsWith "print(1)")
                                 OpLoadAccessList stateAB);
    reflexivity.
Defined.

(** X4: on confirmed success a grant, a revoke and a save show one success
    notification (the access ones naming the email); a load and a run show
    none. *)
Theorem success_notifications (env : Env) (baseurl : string) (props : Props)
        (op : Operation) (s : State) :
  guardPasses props op s = true ->
  succeeds env baseurl props op s = true ->
  toasts (trace (perform env baseurl props op s))
  = match op with
    | OpLoadAccessList | OpRun => []
    | OpGrantAccess =>
        [mkToast "Access Granted" ("Access granted to " ++ newEmail s)
                 StatusSuccess 6000%N]
    | OpRevokeAccess email =>
        [mkToast "Access Revoked" ("Access revoked for " ++ email)
                 StatusSuccess 6000%N]
    | OpSave =>
        [mkToast "Success" "Content saved successfully!" StatusSuccess 6000%N]
    end.
Proof.
  unfold perform, guardPasses, succeeds.
  destruct op; unfold handlerOf, fetchEmails, handleEmailSubmit, removeEmail,
    runCode, saveCode, respondedOk, loadResolved, runResolved;
    intros Hguard Hok; try rewrite Hguard; revert Hok; answers;
    intros Hok; try discriminate; reflexivity.
Qed.

Lemma success_notifications_witness :
  toasts (trace (perform (envOk None "" JUndefined) "http://h"
                         (propsWith "print(1)") OpGrantAccess stateAB))
  = [mkToast "Access Granted" "Access granted to c@x.com" StatusSuccess 6000%N].
Proof.
  apply (success_notifications (envOk None "" JUndefined) "http://h"
                               (propsWith "print(1)") OpGrantAccess stateAB);
    reflexivity.
Defined.

(** X5: when the server refuses a save, a grant or a revoke with a JSON body,
    the notification shows the body's [message] if it is a non-empty string
    and the operation's fallback text otherwise.  A load that is refused
    shows its fixed text whatever the body says. *)
Theorem refusal_message (env : Env) (baseurl : string) (props : Props)
        (op : Operation) (s : State) (rq : FetchReq) (r : Response)
        (d : JsonObj) :
  guardPasses props op s = true ->
  requestOf baseurl props op s = Some rq ->
  env_fetch env rq = Resolved r ->
  ok r = false ->
  json r = Resolved (Some d) ->
  toasts (trace (perform env baseurl props op s))
  = [errorToast (match op with
                 | OpLoadAccessList => fallbackText op
                 | _ => or_else (message d) (fallbackText op)
                 end)]
  /\ (forall text, message d = JString text -> text <> "" ->
      op <> OpLoadAccessList ->
      map description (toasts (trace (perform env baseurl props op s)))
      = [text]).
Proof.
  intros Hguard Hrq Hr Hok Hjson.
  assert (H : toasts (trace (perform env baseurl props op s))
              = [errorToast (match op with
                             | OpLoadAccessList => fallbackText op
                             | _ => or_else (message d) (fallbackText op)
                             end)]).
  { unfold perform, guardPasses, requestOf in *.
    destruct op; try discriminate; injection Hrq as <-;
      unfold handlerOf, fetchEmails, handleEmailSubmit, removeEmail, saveCode;
      try rewrite Hguard; simpl; rewrite Hr; simpl; rewrite Hok; simpl;
      try rewrite Hjson; reflexivity. }
  split; [exact H|].
  intros text Hm Hne Hload. rewrite H.
  destruct op; try contradiction; try discriminate; simpl; rewrite Hm; simpl;
    now rewrite (eqb_empty_false _ Hne).
Qed.

Lemma refusal_message_witness :
  toasts (trace (perform envRefuse "http://h" (propsWith "print(1)")
                         OpSave stateAB))
  = [errorToast "not allowed"].
Proof.
  apply (refusal_message envRefuse "http://h" (propsWith "print(1)") OpSave
                         stateAB
                         (req_save "http://h" (propsWith "print(1)") "print(1)")
                         (rejectedResponse "not allowed")
                         (mkJson None (JString "not allowed")));
    reflexivity.
Defined.

(** X6: when the call itself rejects, a run shows the error's message (or
    "Unable to run code" when it has none), while the fetch-based operations
    show a fixed text: the error's own message is logged, never shown. *)
Theorem rejection_message (env : Env) (baseurl : string) (props : Props)
        (op : Operation) (s : State) (e : JsError) :
  guardPasses props op s = true ->
  rejection env baseurl props op s = Some e ->
  toasts (trace (perform env baseurl props op s))
  = [match op with
     | OpRun => mkToast "An error occurred."
                        (or_else (err_message e) "Unable to run code")
                        StatusError 6000%N
     | OpLoadAccessList => errorToast "Unable to fetch email list."
     | _ => errorToast "An unexpected error occurred."
     end].
Proof.
  unfold perform, guardPasses, rejection.
  destruct op; unfold handlerOf, fetchEmails, handleEmailSubmit, removeEmail,
    runCode, saveCode; intros Hguard Hrej; try rewrite Hguard; simpl;
    simpl in Hrej; revert Hrej;
    match goal with
    | |- context [env_fetch ?env ?rq] => destruct (env_fetch env rq)
    | |- context [env_exec ?env ?l ?src] => destruct (env_exec env l src)
    end; intros Hrej; try discriminate; injection Hrej as ->; reflexivity.
Qed.

Lemma rejection_message_witness :
  toasts (trace (perform envDown "http://h" (propsWith "print(1)")
                         OpRun stateAB))
  = [mkToast "An error occurred." "Network Error" StatusError 6000%N].
Proof.
  apply (rejection_message envDown "http://h" (propsWith "print(1)") OpRun
                           stateAB (mkError (JString "Network Error")));
    reflexivity.
Defined.

(** ** What each controller leaves alone *)

(** X7: a run or a save, whatever the remote side answers, leaves the access
    list, the modal, the pending email, the removal mode and the dropdown as
    they were; a save moreover leaves the execution result, so that all it
    ever writes is the loading flag. *)
Theorem run_and_save_frame (env : Env) (baseurl : string) (props : Props)
        (s : State) :
  (let s' := final (perform env baseurl props OpRun s) in
   emails s' = emails s /\ isModalOpen s' = isModalOpen s
   /\ newEmail s' = newEmail s /\ isRemoving s' = isRemoving s
   /\ isDropdownOpen s' = isDropdownOpen s)
  /\ final (perform env baseurl props OpSave s)
     = (if truthy (getValue props) then setIsLoading false s else s).
Proof.
  unfold perform, handlerOf, runCode, saveCode. split.
  - answers; repeat split.
  - destruct (truthy (getValue props)); answers; reflexivity.
Qed.

(** X8: a load, a grant or a revoke, whatever the server answers, leaves the
    execution result, the loading flag, the removal mode and the dropdown as
    they were; a load and a revoke also leave the modal and the pending
    email. *)
Theorem access_frame (env : Env) (baseurl : string) (props : Props)
        (op : Operation) (s : State) :
  op <> OpRun -> op <> OpSave ->
  let s' := final (perform env baseurl props op s) in
  output s' = output s /\ isError s' = isError s
  /\ isLoading s' = isLoading s /\ isRemoving s' = isRemoving s
  /\ isDropdownOpen s' = isDropdownOpen s
  /\ (op <> OpGrantAccess ->
      isModalOpen s' = isModalOpen s /\ newEmail s' = newEmail s).
Proof.
  intros Hrun Hsave. unfold perform.
  destruct op; try contradiction;
    unfold handlerOf, fetchEmails, handleEmailSubmit, removeEmail;
    answers; repeat split; try reflexivity;
    match goal with Hg : ?x <> ?x |- _ => now elim Hg end.
Qed.

Lemma access_frame_witness :
  let s' := final (perform (envOk (Some ["z@x.com"]) "" JUndefined) "http://h"
                           (propsWith "x") OpLoadAccessList
                           (setIsLoading true stateAB)) in
  output s' = Some ["old"] /\ isLoading s' = true.
Proof.
  destruct (access_frame (envOk (Some ["z@x.com"]) "" JUndefined) "http://h"
                         (propsWith "x") OpLoadAccessList
                         (setIsLoading true stateAB)
                         ltac:(discriminate) ltac:(discriminate))
    as (Hout & _ & Hload & _).
  exact (conj Hout Hload).
Defined.

(** ** Operations one after the other *)

Lemma withoutEmail_absent (email : string) (l : list string) :
  ~ In email l -> withoutEmail email l = l.
Proof.
  induction l as [|e rest IH]; [reflexivity|].
  simpl. intros Hnot. destruct (string_dec e email) as [->|Hne].
  - exfalso. apply Hnot. now left.
  - f_equal. apply IH. intros Hin. apply Hnot. now right.
Qed.

Lemma withoutEmail_app (email : string) (l1 l2 : list string) :
  withoutEmail email (l1 ++ l2)
  = withoutEmail email l1 ++ withoutEmail email l2.
Proof.
  induction l1 as [|e rest IH]; [reflexivity|].
  simpl. destruct (string_dec e email); simpl; now rewrite IH.
Qed.

Lemma withoutEmail_twice (email : string) (l : list string) :
  withoutEmail email (withoutEmail email l) = withoutEmail email l.
Proof.
  apply withoutEmail_absent, withoutEmail_not_In.
Qed.

Lemma revoke_emails (env : Env) (baseurl : string) (props : Props)
      (render : list string) (email : string) (s : State) :
  respondedOk (env_fetch env (req_take baseurl props email)) = true ->
  emails (final (exec env (removeEmail baseurl props render email) s))
  = withoutEmail email render.
Proof.
  intros Hok. unfold removeEmail. simpl. unfold respondedOk in Hok.
  destruct (env_fetch env (req_take baseurl props email)) as [r|e];
    [|discriminate].
  simpl. rewrite Hok. simpl. apply filter_withoutEmail.
Qed.

(** X9: granting an email that is not yet in the list and then revoking it, both
    confirmed by the server, gives the original access list back. *)
Theorem grant_then_revoke_restores (env1 env2 : Env) (baseurl : string)
        (props : Props) (s : State) :
  newEmail s <> "" ->
  ~ In (newEmail s) (emails s) ->
  respondedOk (env_fetch env1 (req_give baseurl props (newEmail s))) = true ->
  respondedOk (env_fetch env2 (req_take baseurl props (newEmail s))) = true ->
  emails (final (perform env2 baseurl props (OpRevokeAccess (newEmail s))
                         (final (perform env1 baseurl props OpGrantAccess s))))
  = emails s.
Proof.
  intros Hne Hnot Hgive Htake. unfold perform at 1. unfold handlerOf.
  rewrite (revoke_emails _ _ _ _ _ _ Htake).
  unfold perform, handlerOf.
  rewrite (grantAccess_uses_render _ _ _ _ _ _ Hne Hgive).
  rewrite withoutEmail_app. simpl.
  destruct (string_dec (newEmail s) (newEmail s)) as [_|Hc];
    [|now elim Hc].
  rewrite app_nil_r. now apply withoutEmail_absent.
Qed.

Lemma grant_then_revoke_restores_witness :
  emails (final (perform (envOk None "" JUndefined) "http://h" (propsWith "x")
                         (OpRevokeAccess "c@x.com")
                         (final (perform (envOk None "" JUndefined) "http://h"
                                         (propsWith "x") OpGrantAccess
                                         stateAB))))
  = ["a@x.com"; "b@x.com"].
Proof.
  apply (grant_then_revoke_restores (envOk None "" JUndefined)
                                    (envOk None "" JUndefined) "http://h"
                                    (propsWith "x") stateAB).
  - discriminate.
  - simpl. intros [H|[H|[]]]; discriminate.
  - reflexivity.
  - reflexivity.
Defined.

(** X10: revoking the same email twice gives the list of revoking it once, and
    revoking an email that is not in the list leaves the list as it is. *)
Theorem revoke_idempotent (env1 env2 : Env) (baseurl : string)
        (props : Props) (email : string) (s : State) :
  respondedOk (env_fetch env1 (req_take baseurl props email)) = true ->
  respondedOk (env_fetch env2 (req_take baseurl props email)) = true ->
  emails (final (perform env2 baseurl props (OpRevokeAccess email)
                         (final (perform env1 baseurl props
                                         (OpRevokeAccess email) s))))
  = emails (final (perform env1 baseurl props (OpRevokeAccess email) s))
  /\ (~ In email (emails s) ->
      emails (final (perform env1 baseurl props (OpRevokeAccess email) s))
      = emails s).
Proof.
  intros H1 H2. unfold perform, handlerOf.
  rewrite (revoke_emails _ _ _ _ _ _ H2).
  rewrite (revoke_emails _ _ _ _ _ _ H1).
  split; [apply withoutEmail_twice|apply withoutEmail_absent].
Qed.

Lemma revoke_idempotent_witness :
  emails (final (perform (envOk None "" JUndefined) "http://h" (propsWith "x")
                         (OpRevokeAccess "zz@x.com") stateAB))
  = ["a@x.com"; "b@x.com"].
Proof.
  apply (proj2 (revoke_idempotent (envOk None "" JUndefined)
                                  (envOk None "" JUndefined) "http://h"
                                  (propsWith "x") "zz@x.com" stateAB
                                  eq_refl eq_refl)).
  simpl. intros [H|[H|[]]]; discriminate.
Defined.

(** X11: after a confirmed grant the pending email is empty, so submitting again
    at once does nothing: no request, no notification, no state change. *)
Theorem resubmit_after_grant_is_noop (env env' : Env) (baseurl : string)
        (props : Props) (s : State) :
  newEmail s <> "" ->
  respondedOk (env_fetch env (req_give baseurl props (newEmail s))) = true ->
  let s1 := final (perform env baseurl props OpGrantAccess s) in
  final (perform env' baseurl props OpGrantAccess s1) = s1
  /\ trace (perform env' baseurl props OpGrantAccess s1) = [].
Proof.
  intros Hne Hok. unfold perform, handlerOf, handleEmailSubmit.
  rewrite (truthy_nonempty _ Hne). simpl.
  unfold respondedOk in Hok.
  destruct (env_fetch env (req_give baseurl props (newEmail s))) as [r|e];
    [|discriminate].
  simpl. rewrite Hok. simpl. auto.
Qed.

Lemma resubmit_after_grant_is_noop_witness :
  let s1 := final (perform (envOk None "" JUndefined) "http://h"
                           (propsWith "x") OpGrantAccess stateAB) in
  final (perform envDown "http://h" (propsWith "x") OpGrantAccess s1) = s1
  /\ trace (perform envDown "http://h" (propsWith "x") OpGrantAccess s1) = [].
Proof.
  apply (resubmit_after_grant_is_noop (envOk None "" JUndefined) envDown
                                      "http://h" (propsWith "x") stateAB).
  - discriminate.
  - reflexivity.
Defined.

(** X12: a failed grant keeps the whole state, so submitting again sends the very
    same request: the retry needs no retyping. *)
Theorem retry_after_failed_grant (env env' : Env) (baseurl : string)
        (props : Props) (s : State) :
  newEmail s <> "" ->
  respondedOk (env_fetch env (req_give baseurl props (newEmail s))) = false ->
  filter isNetworkCall
         (trace (perform env' baseurl props OpGrantAccess
                         (final (perform env baseurl props OpGrantAccess s))))
  = [EvFetch (req_give baseurl props (newEmail s))].
Proof.
  intros Hne Hfail.
  assert (H : final (perform env baseurl props OpGrantAccess s) = s).
  { unfold perform, handlerOf, handleEmailSubmit.
    rewrite (truthy_nonempty _ Hne). simpl. failing_fetch Hfail. }
  rewrite H. unfold perform, handlerOf, handleEmailSubmit.
  rewrite (truthy_nonempty _ Hne). answers; reflexivity.
Qed.

Lemma retry_after_failed_grant_witness :
  filter isNetworkCall
         (trace (perform (envOk None "" JUndefined) "http://h" (propsWith "x")
                         OpGrantAccess
                         (final (perform envRefuse "http://h" (propsWith "x")
                                         OpGrantAccess stateAB))))
  = [EvFetch (req_give "http://h" (propsWith "x") "c@x.com")].
Proof.
  apply (retry_after_failed_grant envRefuse (envOk None "" JUndefined)
                                  "http://h" (propsWith "x") stateAB).
  - discriminate.
  - reflexivity.
Defined.

(** * The component with calls in flight *)

Lemma pending_split (l : list (Proc unit)) (index : nat) (p : Proc unit) :
  nth_error l index = Some p ->
  exists l1 l2, l = l1 ++ p :: l2
                /\ firstn index l = l1 /\ skipn (S index) l = l2.
Proof.
  revert l. induction index as [|n IH]; intros [|x l] H; try discriminate.
  - injection H as ->. exists [], l. auto.
  - destruct (IH l H) as (l1 & l2 & -> & H1 & H2).
    exists (x :: l1), l2. simpl in *. rewrite H1. auto.
Qed.

Lemma runSystem_snoc (acts : list SysAction) (a : SysAction) (sys : System) :
  runSystem (acts ++ [a]) sys = sysStep (runSystem acts sys) a.
Proof. unfold runSystem. now rewrite fold_left_app. Qed.

Lemma runSystem_app (acts acts' : list SysAction) (sys : System) :
  runSystem (acts ++ acts') sys = runSystem acts' (runSystem acts sys).
Proof. unfold runSystem. apply fold_left_app. Qed.

(** ** Invariants kept under interference *)

Section Guarantee.

Variable P : State -> Prop.

Lemma guarantees_advance (A : Type) (p : Proc A) (s : State) :
  guarantees P p s ->
  P (fst (fst (advance p s))) /\ resumable P (snd (advance p s)).
Proof.
  revert s. induction p as [a|e|g k IH|ev k IH|X rq k IH]; intros s H;
    simpl in *; auto.
  specialize (IH s H). destruct (advance k s) as [[s1 tr1] p1]. exact IH.
Qed.

Lemma resumable_resume (env : Env) (A : Type) (p : Proc A) (s : State) :
  resumable P p -> P s ->
  P (fst (fst (resume env p s))) /\ resumable P (snd (resume env p s)).
Proof.
  destruct p as [a|e|g k|ev k|X rq k]; simpl; auto.
  intros Hk Hs. apply guarantees_advance. now apply Hk.
Qed.

Lemma keep_resumable (p : Proc unit) :
  resumable P p -> Forall (resumable P) (keep p).
Proof.
  intros H. unfold keep. destruct (inFlight p); constructor; auto.
Qed.

Lemma launch_sysInv (p : Proc unit) (sys : System) :
  guarantees P p (cells sys) -> sysInv P sys -> sysInv P (launch p sys).
Proof.
  intros Hp [Hs Hpend]. unfold launch.
  pose proof (guarantees_advance _ p (cells sys) Hp) as [H1 H2].
  destruct (advance p (cells sys)) as [[s1 tr1] p1]. simpl in *.
  split; simpl; [exact H1|].
  apply Forall_app. split; [exact Hpend|now apply keep_resumable].
Qed.

Lemma settle_sysInv (index : nat) (env : Env) (sys : System) :
  sysInv P sys -> sysInv P (settle index env sys).
Proof.
  intros [Hs Hpend]. unfold settle.
  destruct (nth_error (pending sys) index) as [p|] eqn:Hnth; [|now split].
  destruct (pending_split _ _ _ Hnth) as (l1 & l2 & Hl & H1 & H2).
  rewrite H1, H2. rewrite Hl in Hpend.
  apply Forall_app in Hpend. destruct Hpend as [Hl1 Hrest].
  inversion Hrest as [|? ? Hp Hl2]; subst.
  pose proof (resumable_resume env _ p (cells sys) Hp Hs) as [Hs' Hp'].
  destruct (resume env p (cells sys)) as [[s1 tr1] p1]. simpl in *.
  split; simpl; [exact Hs'|].
  apply Forall_app. split; [exact Hl1|].
  apply Forall_app. split; [now apply keep_resumable|exact Hl2].
Qed.

Hypothesis handlers_guarantee :
  forall baseurl props op render s,
    P s -> guarantees P (handlerOf baseurl props op render) s.
Hypothesis ui_guarantees : forall ev s, P s -> guarantees P (onUi ev) s.

Lemma sysStep_sysInv (sys : System) (a : SysAction) :
  sysInv P sys -> sysInv P (sysStep sys a).
Proof.
  intros H. destruct a as [baseurl props op|ev|index env]; simpl.
  - apply launch_sysInv; [|exact H]. apply handlers_guarantee, H.
  - apply launch_sysInv; [|exact H]. apply ui_guarantees, H.
  - now apply settle_sysInv.
Qed.

Lemma runSystem_sysInv (acts : list SysAction) (sys : System) :
  sysInv P sys -> sysInv P (runSystem acts sys).
Proof.
  revert sys. induction acts as [|a acts IH]; intros sys H; [exact H|].
  simpl. apply IH. now apply sysStep_sysInv.
Qed.

End Guarantee.

Ltac interfere :=
  repeat match goal with
         | |- context [truthy ?v] => destruct (truthy v)
         end;
  repeat (simpl;
          match goal with
          | |- _ /\ _ => split
          | |- forall _, _ => intro
          | o : Outcome _ |- _ => destruct o
          | |- context [ok ?r] => destruct (ok r)
          | |- context [run ?d] => destruct (run d) as [?result|]
          | |- context [run_output ?x] => destruct (run_output x)
          | |- context [truthy ?v] => destruct (truthy v)
          | x : option JsonObj |- _ => destruct x
          end);
  simpl.

Lemma outputInv_frame (s s' : State) :
  output s' = output s -> isError s' = isError s ->
  outputInv s -> outputInv s'.
Proof. unfold outputInv. intros -> ->. auto. Qed.

Lemma outputInv_split (out : string) (s : State) :
  output s = Some (split newline out) -> outputInv s.
Proof.
  unfold outputInv. intros ->.
  split; [apply split_not_nil|apply split_pieces_clean].
Qed.

Lemma handlers_guarantee_outputInv (baseurl : string) (props : Props)
      (op : Operation) (render s : State) :
  outputInv s -> guarantees outputInv (handlerOf baseurl props op render) s.
Proof.
  intros H.
  destruct op; unfold handlerOf, fetchEmails, handleEmailSubmit, removeEmail,
    runCode, saveCode; interfere;
    first [ assumption
          | eapply outputInv_split; reflexivity
          | eapply outputInv_frame; [| |eassumption]; reflexivity ].
Qed.

Lemma ui_guarantees_outputInv (ev : UiEvent) (s : State) :
  outputInv s -> guarantees outputInv (onUi ev) s.
Proof.
  intros H. destruct ev; simpl;
    (eapply outputInv_frame; [| |exact H]; reflexivity).
Qed.

(** X13: in every state the component can reach, by any interleaving of
    operations, clicks and settling calls and whatever the remote side
    answers, the output box shows either the placeholder with no error
    colour, or at least one line, none of which holds a newline. *)
Theorem output_box_invariant (acts : list SysAction) :
  match box_content (outputBox (cells (runSystem acts initialSystem))) with
  | Placeholder _ =>
      box_color (outputBox (cells (runSystem acts initialSystem))) = ""
  | Lines texts =>
      texts <> [] /\ Forall (fun line => contains newline line = false) texts
  end.
Proof.
  assert (H : sysInv outputInv (runSystem acts initialSystem)).
  { apply runSystem_sysInv.
    - intros. now apply handlers_guarantee_outputInv.
    - intros. now apply ui_guarantees_outputInv.
    - split; [reflexivity|constructor]. }
  destruct H as [H _]. unfold outputInv in H. unfold outputBox. simpl.
  destruct (output (cells (runSystem acts initialSystem))); [exact H|].
  now rewrite H.
Qed.

(** ** Properties every single write keeps *)

Section Keeps.

Variable P : State -> Prop.

Lemma keeps_advance (A : Type) (p : Proc A) (s : State) :
  keeps P p ->
  keeps P (snd (advance p s)) /\ (P s -> P (fst (fst (advance p s)))).
Proof.
  revert s. induction p as [a|e|g k IH|ev k IH|X rq k IH]; intros s H;
    simpl in *; auto.
  - destruct H as [Hg Hk]. destruct (IH (g s) Hk) as [H1 H2]. auto.
  - specialize (IH s H). destruct (advance k s) as [[s1 tr1] p1]. exact IH.
Qed.

Lemma keeps_resume (env : Env) (A : Type) (p : Proc A) (s : State) :
  keeps P p ->
  keeps P (snd (resume env p s)) /\ (P s -> P (fst (fst (resume env p s)))).
Proof.
  destruct p as [a|e|g k|ev k|X rq k]; simpl; auto.
  intros Hk. apply keeps_advance, Hk.
Qed.

Lemma keep_keeps (p : Proc unit) : keeps P p -> Forall (keeps P) (keep p).
Proof.
  intros H. unfold keep. destruct (inFlight p); constructor; auto.
Qed.

Hypothesis handlers_keep :
  forall baseurl props op render, keeps P (handlerOf baseurl props op render).
Hypothesis ui_keeps : forall ev, keeps P (onUi ev).

Lemma launch_keeps (p : Proc unit) (sys : System) :
  keeps P p ->
  Forall (keeps P) (pending sys) ->
  Forall (keeps P) (pending (launch p sys))
  /\ (P (cells sys) -> P (cells (launch p sys))).
Proof.
  intros Hp Hpend. unfold launch.
  destruct (keeps_advance _ p (cells sys) Hp) as [H1 H2].
  destruct (advance p (cells sys)) as [[s1 tr1] p1]. simpl in *.
  split; [|exact H2].
  apply Forall_app. split; [exact Hpend|now apply keep_keeps].
Qed.

Lemma sysStep_keeps (sys : System) (a : SysAction) :
  Forall (keeps P) (pending sys) ->
  Forall (keeps P) (pending (sysStep sys a))
  /\ (P (cells sys) -> P (cells (sysStep sys a))).
Proof.
  intros Hpend. destruct a as [baseurl props op|ev|index env]; simpl.
  - now apply launch_keeps.
  - now apply launch_keeps.
  - unfold settle.
    destruct (nth_error (pending sys) index) as [p|] eqn:Hnth; [|now split].
    destruct (pending_split _ _ _ Hnth) as (l1 & l2 & Hl & H1 & H2).
    rewrite H1, H2. rewrite Hl in Hpend.
    apply Forall_app in Hpend. destruct Hpend as [Hl1 Hrest].
    inversion Hrest as [|? ? Hp Hl2]; subst.
    destruct (keeps_resume env _ p (cells sys) Hp) as [Hp' Hs'].
    destruct (resume env p (cells sys)) as [[s1 tr1] p1]. simpl in *.
    split; [|exact Hs'].
    apply Forall_app. split; [exact Hl1|].
    apply Forall_app. split; [now apply keep_keeps|exact Hl2].
Qed.

Lemma runSystem_keeps (acts : list SysAction) (sys : System) :
  Forall (keeps P) (pending sys) ->
  Forall (keeps P) (pending (runSystem acts sys))
  /\ (P (cells sys) -> P (cells (runSystem acts sys))).
Proof.
  revert sys. induction acts as [|a acts IH]; intros sys H; [now split|].
  simpl. destruct (sysStep_keeps sys a H) as [H1 H2].
  destruct (IH _ H1) as [H3 H4]. auto.
Qed.

End Keeps.

Ltac writes :=
  repeat match goal with
         | |- context [truthy ?v] => destruct (truthy v)
         end;
  repeat (simpl;
          match goal with
          | |- _ /\ _ => split
          | |- True => exact I
          | |- forall _, _ => intro
          | o : Outcome _ |- _ => destruct o
          | |- context [ok ?r] => destruct (ok r)
          | |- context [run ?d] => destruct (run d) as [?result|]
          | |- context [run_output ?x] => destruct (run_output x)
          | |- context [truthy ?v] => destruct (truthy v)
          | x : option JsonObj |- _ => destruct x
          end);
  simpl.

Lemma handlers_keep_output (baseurl : string) (props : Props)
      (op : Operation) (render : State) :
  keeps (fun s => output s <> None) (handlerOf baseurl props op render).
Proof.
  destruct op; unfold handlerOf, fetchEmails, handleEmailSubmit, removeEmail,
    runCode, saveCode; writes; try assumption; discriminate.
Qed.

Lemma ui_keeps_output (ev : UiEvent) :
  keeps (fun s => output s <> None) (onUi ev).
Proof. destruct ev; simpl; auto. Qed.

(** X14: once the output box shows lines it never goes back to the placeholder:
    no failed run, no other operation and no interleaving of them clears the
    output. *)
Theorem output_never_cleared (before after : list SysAction) :
  output (cells (runSystem before initialSystem)) <> None ->
  box_content (outputBox (cells (runSystem (before ++ after) initialSystem)))
  <> Placeholder placeholderText.
Proof.
  intros H. rewrite runSystem_app.
  assert (Hpend : Forall (keeps (fun s => output s <> None))
                         (pending (runSystem before initialSystem))).
  { apply runSystem_keeps.
    - apply handlers_keep_output.
    - apply ui_keeps_output.
    - constructor. }
  pose proof (runSystem_keeps (fun s => output s <> None)
                              handlers_keep_output ui_keeps_output
                              after _ Hpend) as [_ Hout].
  specialize (Hout H). unfold outputBox. simpl.
  destruct (output (cells (runSystem after (runSystem before initialSystem))));
    [discriminate|now elim Hout].
Qed.

Lemma output_never_cleared_witness :
  box_content
    (outputBox
       (cells (runSystem
                 ([Invoke "http://h" (propsWith "print(1)") OpRun;
                   Settle 0 (envOk None out123 JUndefined)]
                  ++ [Invoke "http://h" (propsWith "print(2)") OpRun;
                      Settle 0 envDown])
                 initialSystem)))
  <> Placeholder placeholderText.
Proof.
  apply (output_never_cleared
           [Invoke "http://h" (propsWith "print(1)") OpRun;
            Settle 0 (envOk None out123 JUndefined)]
           [Invoke "http://h" (propsWith "print(2)") OpRun;
            Settle 0 envDown]).
  discriminate.
Defined.

(** ** The loading flag and the calls in flight *)

Lemma endsIdle_advance (A : Type) (p : Proc A) (s : State) :
  endsIdle p s ->
  if inFlight (snd (advance p s)) then clearing (snd (advance p s))
  else isLoading (fst (fst (advance p s))) = false.
Proof.
  revert s. induction p as [a|e|g k IH|ev k IH|X rq k IH]; intros s H;
    simpl in *.
  - exact H.
  - exact H.
  - now apply IH.
  - specialize (IH s H). destruct (advance k s) as [[s1 tr1] p1]. exact IH.
  - exact H.
Qed.

Lemma clearing_resume (env : Env) (A : Type) (p : Proc A) (s : State) :
  clearing p ->
  if inFlight (snd (resume env p s)) then clearing (snd (resume env p s))
  else isLoading (fst (fst (resume env p s))) = false.
Proof.
  destruct p as [a|e|g k|ev k|X rq k]; simpl; try contradiction.
  intros Hk. apply endsIdle_advance, Hk.
Qed.

Lemma neutral_advance (A : Type) (p : Proc A) (s : State) :
  neutral p ->
  neutral (snd (advance p s))
  /\ isLoading (fst (fst (advance p s))) = isLoading s.
Proof.
  intros H. split.
  - intros b. apply keeps_advance, H.
  - apply (keeps_advance (fun x => isLoading x = isLoading s) _ p s
                         (H (isLoading s))).
    reflexivity.
Qed.

Lemma neutral_resume (env : Env) (A : Type) (p : Proc A) (s : State) :
  neutral p ->
  neutral (snd (resume env p s))
  /\ isLoading (fst (fst (resume env p s))) = isLoading s.
Proof.
  intros H. split.
  - intros b. apply keeps_resume, H.
  - apply (keeps_resume (fun x => isLoading x = isLoading s) env _ p s
                        (H (isLoading s))).
    reflexivity.
Qed.

Lemma handlers_idle_or_neutral (baseurl : string) (props : Props)
      (op : Operation) (render s : State) :
  endsIdle (handlerOf baseurl props op render) s
  \/ neutral (handlerOf baseurl props op render).
Proof.
  destruct op; unfold handlerOf.
  - right. intros b. unfold fetchEmails. writes; auto.
  - right. intros b. unfold handleEmailSubmit. writes; auto.
  - right. intros b. unfold removeEmail. writes; auto.
  - unfold runCode. destruct (truthy (getValue props)); simpl negb; cbv iota.
    + left. writes; reflexivity.
    + right. intros b. exact I.
  - unfold saveCode. destruct (truthy (getValue props)); simpl negb; cbv iota.
    + left. writes; reflexivity.
    + right. intros b. exact I.
Qed.

Lemma ui_neutral (ev : UiEvent) : neutral (onUi ev).
Proof. intros b. destruct ev; simpl; auto. Qed.

Lemma keep_Forall (Q : Proc unit -> Prop) (p : Proc unit) :
  Q p -> Forall Q (keep p).
Proof. intros H. unfold keep. destruct (inFlight p); constructor; auto. Qed.

Lemma launch_spinnerInv (p : Proc unit) (sys : System) :
  endsIdle p (cells sys) \/ neutral p ->
  spinnerInv sys -> spinnerInv (launch p sys).
Proof.
  intros Hp [Hall Hex]. unfold launch, spinnerInv.
  destruct Hp as [Hidle|Hneutral].
  - pose proof (endsIdle_advance _ p (cells sys) Hidle) as H.
    destruct (advance p (cells sys)) as [[s1 tr1] p1]. simpl in *.
    unfold keep. destruct (inFlight p1).
    + split.
      * apply Forall_app. split; [exact Hall|]. constructor; auto.
      * intros _. apply Exists_app. right. now constructor.
    + split.
      * now rewrite app_nil_r.
      * intros Hc. rewrite H in Hc. discriminate.
  - pose proof (neutral_advance _ p (cells sys) Hneutral) as [H1 H2].
    destruct (advance p (cells sys)) as [[s1 tr1] p1]. simpl in *. split.
    + apply Forall_app. split; [exact Hall|]. apply keep_Forall. now right.
    + intros Hc. rewrite H2 in Hc. apply Exists_app. left. now apply Hex.
Qed.

Lemma settle_spinnerInv (index : nat) (env : Env) (sys : System) :
  spinnerInv sys -> spinnerInv (settle index env sys).
Proof.
  intros [Hall Hex]. unfold settle.
  destruct (nth_error (pending sys) index) as [p|] eqn:Hnth; [|now split].
  destruct (pending_split _ _ _ Hnth) as (l1 & l2 & Hl & H1 & H2).
  rewrite H1, H2. rewrite Hl in Hall, Hex. clear H1 H2 Hl Hnth.
  apply Forall_app in Hall. destruct Hall as [Hl1 Hrest].
  inversion Hrest as [|? ? Hp Hl2]; subst.
  assert (Hclear : clearing p ->
                   if inFlight (snd (resume env p (cells sys)))
                   then clearing (snd (resume env p (cells sys)))
                   else isLoading (fst (fst (resume env p (cells sys))))
                        = false)
    by apply clearing_resume.
  assert (Hneut : neutral p ->
                  neutral (snd (resume env p (cells sys)))
                  /\ isLoading (fst (fst (resume env p (cells sys))))
                     = isLoading (cells sys))
    by apply neutral_resume.
  destruct (resume env p (cells sys)) as [[s1 tr1] p1]. simpl in *.
  unfold spinnerInv. simpl. unfold keep.
  destruct Hp as [Hc|Hn].
  - specialize (Hclear Hc). destruct (inFlight p1); simpl.
    + split.
      * apply Forall_app. split; [exact Hl1|]. constructor; auto.
      * intros _. apply Exists_app. right. now constructor.
    + split.
      * apply Forall_app. now split.
      * intros Hload. rewrite Hclear in Hload. discriminate.
  - destruct (Hneut Hn) as [Hn1 Hsame]. split.
    + apply Forall_app. split; [exact Hl1|].
      destruct (inFlight p1); simpl; [constructor|]; auto.
    + intros Hload. rewrite Hsame in Hload. specialize (Hex Hload).
      apply Exists_app in Hex. destruct Hex as [Hex|Hex].
      * apply Exists_app. now left.
      * inversion Hex as [? ? Hc|? ? Hin]; subst.
        -- specialize (Hclear Hc). destruct (inFlight p1); simpl.
           ++ apply Exists_app. right. now constructor.
           ++ rewrite <- Hsame in Hload. rewrite Hclear in Hload.
              discriminate.
        -- apply Exists_app. right.
           destruct (inFlight p1); simpl; [now constructor 2|exact Hin].
Qed.

Lemma runSystem_spinnerInv (acts : list SysAction) (sys : System) :
  spinnerInv sys -> spinnerInv (runSystem acts sys).
Proof.
  revert sys. induction acts as [|a acts IH]; intros sys H; [exact H|].
  simpl. apply IH. destruct a as [baseurl props op|ev|index env]; simpl.
  - apply launch_spinnerInv; [apply handlers_idle_or_neutral|exact H].
  - apply launch_spinnerInv; [right; apply ui_neutral|exact H].
  - now apply settle_spinnerInv.
Qed.

(** X15: the loading spinner is never left on: in every state the component can
    reach, whatever the interleaving and the answers, once no call is in
    flight both buttons show no spinner. *)
Theorem spinner_off_when_idle (acts : list SysAction) :
  pending (runSystem acts initialSystem) = [] ->
  runButton_isLoading (cells (runSystem acts initialSystem)) = false
  /\ saveButton_isLoading (cells (runSystem acts initialSystem)) = false.
Proof.
  intros Hidle.
  assert (H : spinnerInv (runSystem acts initialSystem)).
  { apply runSystem_spinnerInv. split; [constructor|discriminate]. }
  destruct H as [_ H]. rewrite Hidle in H.
  unfold runButton_isLoading, saveButton_isLoading.
  destruct (isLoading (cells (runSystem acts initialSystem))); [|auto].
  specialize (H eq_refl). inversion H.
Qed.

Lemma spinner_off_when_idle_witness :
  runButton_isLoading
    (cells (runSystem [Invoke "http://h" (propsWith "print(1)") OpRun;
                       Invoke "http://h" (propsWith "print(1)") OpSave;
                       Settle 1 envRefuse; Settle 1 envRefuse;
                       Settle 0 envDown]
                      initialSystem)) = false.
Proof.
  apply (spinner_off_when_idle
           [Invoke "http://h" (propsWith "print(1)") OpRun;
            Invoke "http://h" (propsWith "print(1)") OpSave;
            Settle 1 envRefuse; Settle 1 envRefuse; Settle 0 envDown]).
  reflexivity.
Defined.

(** ** Calls that overlap *)


Lemma withoutEmail_In (email other : string) (l : list string) :
  In other (withoutEmail email l) -> In other l.
Proof.
  induction l as [|e rest IH]; [auto|].
  simpl. destruct (string_dec e email).
  - intros H. right. now apply IH.
  - intros [->|H]; [now left|right; now apply IH].
Qed.

(** X17: a grant and a revoke started from the same render both write the list of
    that render: whichever response arrives last wins.  If the revoke
    settles last the granted email is not in the list; if the grant settles
    last the revoked email is still there. *)
Theorem overlapping_grant_and_revoke (env1 env2 : Env) (baseurl : string)
        (props : Props) (email : string) (s : State) :
  newEmail s <> "" ->
  respondedOk (env_fetch env1 (req_give baseurl props (newEmail s))) = true ->
  respondedOk (env_fetch env2 (req_take baseurl props email)) = true ->
  let started :=
    runSystem [Invoke baseurl props OpGrantAccess;
               Invoke baseurl props (OpRevokeAccess email)]
              (mkSystem s [] []) in
  emails (cells (runSystem [Settle 0 env1; Settle 0 env2] started))
    = withoutEmail email (emails s)
  /\ emails (cells (runSystem [Settle 1 env2; Settle 0 env1] started))
     = emails s ++ [newEmail s]
  /\ (~ In (newEmail s) (emails s) ->
      ~ In (newEmail s)
           (emails (cells (runSystem [Settle 0 env1; Settle 0 env2] started))))
  /\ (In email (emails s) ->
      In email
         (emails (cells (runSystem [Settle 1 env2; Settle 0 env1] started)))).
Proof.
  intros Hne Hgive Htake started.
  assert (H1 : emails (cells (runSystem [Settle 0 env1; Settle 0 env2] started))
               = withoutEmail email (emails s)).
  { subst started. unfold runSystem. simpl fold_left. unfold sysStep.
    unfold handlerOf, handleEmailSubmit, removeEmail, launch, settle, keep.
    rewrite (truthy_nonempty _ Hne). simpl.
    unfold respondedOk in Hgive, Htake.
    destruct (env_fetch env1 (req_give baseurl props (newEmail s)))
      as [r1|e1]; [|discriminate].
    simpl. rewrite Hgive. simpl.
    destruct (env_fetch env2 (req_take baseurl props email))
      as [r2|e2]; [|discriminate].
    simpl. rewrite Htake. simpl. apply filter_withoutEmail. }
  assert (H2 : emails (cells (runSystem [Settle 1 env2; Settle 0 env1] started))
               = emails s ++ [newEmail s]).
  { subst started. unfold runSystem. simpl fold_left. unfold sysStep.
    unfold handlerOf, handleEmailSubmit, removeEmail, launch, settle, keep.
    rewrite (truthy_nonempty _ Hne). simpl.
    unfold respondedOk in Hgive, Htake.
    destruct (env_fetch env2 (req_take baseurl props email))
      as [r2|e2]; [|discriminate].
    simpl. rewrite Htake. simpl.
    destruct (env_fetch env1 (req_give baseurl props (newEmail s)))
      as [r1|e1]; [|discriminate].
    simpl. rewrite Hgive. reflexivity. }
  rewrite H1, H2. repeat split.
  - intros Hnot Hin. apply Hnot. eapply withoutEmail_In, Hin.
  - intros Hin. apply in_or_app. now left.
Qed.

Lemma overlapping_grant_and_revoke_witness :
  let started :=
    runSystem [Invoke "http://h" (propsWith "x") OpGrantAccess;
               Invoke "http://h" (propsWith "x") (OpRevokeAccess "a@x.com")]
              (mkSystem stateAB [] []) in
  emails (cells (runSystem [Settle 0 (envOk None "" JUndefined);
                            Settle 0 (envOk None "" JUndefined)] started))
    = ["b@x.com"]
  /\ emails (cells (runSystem [Settle 1 (envOk None "" JUndefined);
                               Settle 0 (envOk None "" JUndefined)] started))
     = ["a@x.com"; "b@x.com"; "c@x.com"].
Proof.
  destruct (overlapping_grant_and_revoke
              (envOk None "" JUndefined) (envOk None "" JUndefined)
              "http://h" (propsWith "x") "a@x.com" stateAB
              ltac:(discriminate) eq_refl eq_refl)
    as (H1 & H2 & _).
  exact (conj H1 H2).
Defined.

(** X18: two runs in flight: the execution result shown is the one of the run
    whose call settled last, not of the run started last. *)
Theorem last_settled_run_wins (env1 env2 : Env) (baseurl : string)
        (props1 props2 : Props) (src1 src2 out1 out2 : string)
        (err1 err2 : jsval) (s : State) :
  editor props1 = Some src1 -> src1 <> "" ->
  editor props2 = Some src2 -> src2 <> "" ->
  runResolved (env_exec env1 (language props1) src1) = Some (out1, err1) ->
  runResolved (env_exec env2 (language props2) src2) = Some (out2, err2) ->
  let started :=
    runSystem [Invoke baseurl props1 OpRun; Invoke baseurl props2 OpRun]
              (mkSystem s [] []) in
  executionResult (cells (runSystem [Settle 1 env2; Settle 0 env1] started))
    = (Some (split newline out1), truthy err1)
  /\ executionResult (cells (runSystem [Settle 0 env1; Settle 0 env2] started))
     = (Some (split newline out2), truthy err2).
Proof.
  intros Hed1 Hne1 Hed2 Hne2 Hres1 Hres2 started. subst started.
  unfold runResolved in Hres1, Hres2.
  destruct (env_exec env1 (language props1) src1) as [d1|e1] eqn:E1;
    [|discriminate].
  destruct (env_exec env2 (language props2) src2) as [d2|e2] eqn:E2;
    [|discriminate].
  destruct (run d1) as [[o1 x1]|] eqn:R1; [|discriminate].
  destruct (run d2) as [[o2 x2]|] eqn:R2; [|discriminate].
  simpl in Hres1, Hres2.
  destruct o1 as [|o1]; [discriminate|]. destruct o2 as [|o2]; [discriminate|].
  injection Hres1 as -> ->. injection Hres2 as -> ->.
  unfold runSystem. simpl fold_left. unfold sysStep.
  unfold handlerOf, runCode, getValue, launch, settle, keep.
  rewrite Hed1, Hed2, (truthy_nonempty _ Hne1), (truthy_nonempty _ Hne2).
  destruct (truthy err1) eqn:T1, (truthy err2) eqn:T2;
    repeat (simpl; rewrite ?E1, ?E2, ?R1, ?R2, ?T1, ?T2); split; reflexivity.
Qed.

Lemma last_settled_run_wins_witness :
  let started :=
    runSystem [Invoke "http://h" (propsWith "first") OpRun;
               Invoke "http://h" (propsWith "second") OpRun]
              (mkSystem stateAB [] []) in
  executionResult
    (cells (runSystem [Settle 1 (envOk None "two" JUndefined);
                       Settle 0 (envOk None "one" (JString "warn"))] started))
  = (Some ["one"], true).
Proof.
  apply (last_settled_run_wins
           (envOk None "one" (JString "warn")) (envOk None "two" JUndefined)
           "http://h" (propsWith "first") (propsWith "second")
           "first" "second" "one" "two" (JString "warn") JUndefined stateAB
           eq_refl ltac:(discriminate) eq_refl ltac:(discriminate)
           eq_refl eq_refl).
Defined.

(** ** The modal and the menu *)

(** X19: an email typed into the modal survives closing and reopening it, and a
    confirmed submit then grants exactly that email, empties the input and
    closes the modal. *)
Theorem typed_email_is_granted (env : Env) (baseurl : string) (props : Props)
        (email : string) (s : State) :
  email <> "" ->
  respondedOk (env_fetch env (req_give baseurl props email)) = true ->
  let sys :=
    runSystem [Ui EnterNewEmailClick; Ui (InputChange email); Ui ModalClose;
               Ui EnterNewEmailClick; Invoke baseurl props OpGrantAccess;
               Settle 0 env]
              (mkSystem s [] []) in
  emails (cells sys) = emails s ++ [email]
  /\ newEmail (cells sys) = ""
  /\ isModalOpen (cells sys) = false
  /\ pending sys = [].
Proof.
  intros Hne Hok sys. subst sys.
  unfold runSystem. simpl fold_left. unfold sysStep.
  unfold handlerOf, handleEmailSubmit, launch, settle, keep. simpl.
  rewrite (eqb_empty_false _ Hne). simpl.
  unfold respondedOk in Hok.
  destruct (env_fetch env (req_give baseurl props email)) as [r|e];
    [|discriminate].
  simpl. rewrite Hok. simpl. auto.
Qed.

Lemma typed_email_is_granted_witness :
  emails (cells (runSystem
                   [Ui EnterNewEmailClick; Ui (InputChange "d@x.com");
                    Ui ModalClose; Ui EnterNewEmailClick;
                    Invoke "http://h" (propsWith "x") OpGrantAccess;
                    Settle 0 (envOk None "" JUndefined)]
                   (mkSystem stateAB [] [])))
  = ["a@x.com"; "b@x.com"; "d@x.com"].
Proof.
  apply (typed_email_is_granted (envOk None "" JUndefined) "http://h"
                                (propsWith "x") "d@x.com" stateAB
                                ltac:(discriminate) eq_refl).
Defined.

Lemma emailEntries_nth (removing : bool) (l : list string) (k i : nat) :
  nth_error (emailEntries removing k l) i
  = option_map (fun email => EmailEntry (k + i) email removing)
               (nth_error l i).
Proof.
  revert k i. induction l as [|e rest IH]; intros k [|i]; simpl;
    try reflexivity.
  - now rewrite Nat.add_0_r.
  - rewrite IH. now rewrite Nat.add_succ_r.
Qed.

Lemma emailEntries_length (removing : bool) (l : list string) (k : nat) :
  List.length (emailEntries removing k l) = List.length l.
Proof.
  revert k. induction l as [|e rest IH]; intros k; simpl; [|rewrite IH];
    reflexivity.
Qed.

(** X20: the menu lists the access list in order, one entry per email (duplicates
    included) keyed by its position, each with a remove button exactly in
    removal mode, followed by the removal-mode toggle and the "Enter New
    Email" entry. *)
Theorem menu_layout (s : State) :
  List.length (menuList s) = List.length (emails s) + 2
  /\ (forall i email,
        nth_error (emails s) i = Some email ->
        nth_error (menuList s) i = Some (EmailEntry i email (isRemoving s)))
  /\ nth_error (menuList s) (List.length (emails s))
     = Some (TextEntry (if isRemoving s then "Done Removing"
                        else "Remove Email"))
  /\ nth_error (menuList s) (S (List.length (emails s)))
     = Some (TextEntry "Enter New Email").
Proof.
  unfold menuList. repeat split.
  - rewrite length_app, emailEntries_length. reflexivity.
  - intros i email H.
    rewrite nth_error_app1.
    + rewrite emailEntries_nth, H. reflexivity.
    + rewrite emailEntries_length. apply nth_error_Some. now rewrite H.
  - rewrite nth_error_app2; rewrite emailEntries_length; [|lia].
    now rewrite Nat.sub_diag.
  - rewrite nth_error_app2; rewrite emailEntries_length; [|lia].
    replace (S (List.length (emails s)) - List.length (emails s)) with 1
      by lia.
    reflexivity.
Qed.

(** X21: toggling removal mode flips the remove buttons and the toggle's label and
    touches nothing else; toggling twice gives the state back. *)
Theorem toggleRemoveMode_flips (env : Env) (s : State) :
  menuList (final (exec env toggleRemoveMode s))
  = emailEntries (negb (isRemoving s)) 0 (emails s)
    ++ [TextEntry (if isRemoving s then "Remove Email" else "Done Removing");
        TextEntry "Enter New Email"]
  /\ final (exec env toggleRemoveMode (final (exec env toggleRemoveMode s)))
     = s
  /\ trace (exec env toggleRemoveMode s) = [].
Proof.
  unfold toggleRemoveMode, menuList. simpl. repeat split.
  - destruct (isRemoving s); reflexivity.
  - destruct s as [o l e m mo n r d]. unfold toggleIsRemoving. simpl.
    now rewrite negb_involutive.
Qed.

Lemma menu_layout_witness :
  nth_error (menuList (toggleIsRemoving stateAB)) 1
  = Some (EmailEntry 1 "b@x.com" true).
Proof.
  apply (proj1 (proj2 (menu_layout (toggleIsRemoving stateAB))) 1 "b@x.com").
  reflexivity.
Defined.
